(** * llm-eval: run orchestration and log mining of [evaluate_agent.py]

    A shallow embedding of the parts of [evaluate_agent.py] that manage one
    agent run ([AgentRunner]) and that mine the captured server log
    ([MetadataCollector.get_token_usage],
    [MetadataCollector.get_prompt_processing_time]), with the properties the
    specification states about them.

    Conventions of the embedding:
    - a Python [str] is a [list ascii]; a character is a code point below 256
      (Latin-1), and the character classes of Python ([str.isspace],
      [str.isalnum], the [\d] and [\s] of [re]) are given on that range;
    - a Python [int] is a [Z]; a duration in seconds, which the source holds
      in a float that only ever receives whole numbers, is a [Z] too;
    - file contents are decoded text: the [utf-8]/[errors='ignore'] decoding
      done by [open] is not part of the model;
    - the file system is a finite map from paths to nodes, and the methods of
      [AgentRunner] run in a state-and-exception monad over it. *)

From Stdlib Require Import ZArith Ascii String List Lia DecimalString.
From stdpp Require Import gmap strings list fin_maps.

Abbreviation text := (list ascii).

(** ** Text primitives *)

Module Text.

Definition txt (s : string) : text := list_ascii_of_string s.

Definition code (c : ascii) : N := N_of_ascii c.

Definition between (lo hi : N) (c : ascii) : bool :=
  ((lo <=? code c) && (code c <=? hi))%N.

(** The double quote, which the patterns of the source are full of. *)
Definition dq : ascii := "034"%char.

(** [quoted s] is [s] between double quotes. *)
Definition quoted (s : string) : text := dq :: txt s ++ [dq].

(** [\d] of [re] on [str], and [str.isdecimal]: the decimal digits. *)
Definition isdigit (c : ascii) : bool := between 48 57 c.

(** [str.isspace], which is also [\s] of [re] on [str]. *)
Definition isspace (c : ascii) : bool :=
  between 9 13 c || between 28 32 c || between 133 133 c
  || between 160 160 c.

(** [str.isalnum]: letters, and everything Unicode counts as a digit or a
    number (superscripts and vulgar fractions included). *)
Definition isalnum (c : ascii) : bool :=
  between 48 57 c || between 65 90 c || between 97 122 c
  || between 170 170 c || between 178 179 c || between 181 181 c
  || between 185 186 c || between 188 190 c
  || between 192 214 c || between 216 246 c || between 248 255 c.

(** [s.startswith(p)], returning what follows the prefix. *)
Fixpoint strip_prefix (p s : text) : option text :=
  match p, s with
  | [], _ => Some s
  | a :: p', b :: s' => if Ascii.eqb a b then strip_prefix p' s' else None
  | _ :: _, [] => None
  end.

(** [needle in hay]. *)
Fixpoint contains (needle hay : text) : bool :=
  match strip_prefix needle hay with
  | Some _ => true
  | None => match hay with
            | [] => false
            | _ :: hay' => contains needle hay'
            end
  end.

(** [int(s)] on a run of decimal digits. *)
Definition digit_value (c : ascii) : Z := Z.of_N (code c) - 48.

Definition int_of_digits (s : text) : Z :=
  fold_left (fun acc c => 10 * acc + digit_value c)%Z s 0%Z.

(** [str(n)] for an [int]. *)
Definition str_of_int (n : Z) : text :=
  txt (NilZero.string_of_int (Z.to_int n)).

(** [str.strip()]: leading and trailing white space removed. *)
Fixpoint lstrip (s : text) : text :=
  match s with
  | c :: s' => if isspace c then lstrip s' else s
  | [] => []
  end.

Definition strip (s : text) : text := rev (lstrip (rev (lstrip s))).

(** Universal newlines, as a text-mode [open] applies on reading: [\r\n]
    and a lone [\r] both become [\n]. *)
Definition cr : ascii := "013"%char.
Definition lf : ascii := "010"%char.

Fixpoint universal_newlines (s : text) : text :=
  match s with
  | [] => []
  | c :: s' =>
      if Ascii.eqb c cr then
        match s' with
        | d :: s'' => if Ascii.eqb d lf then lf :: universal_newlines s''
                      else lf :: universal_newlines s'
        | [] => [lf]
        end
      else c :: universal_newlines s'
  end.

(** [f.readlines()] on translated text: lines keep their [\n]; a last
    line without one is a line too. *)
Fixpoint split_lines (cur : text) (s : text) : list text :=
  match s with
  | [] => match cur with [] => [] | _ => [rev cur] end
  | c :: s' =>
      if Ascii.eqb c lf then rev (c :: cur) :: split_lines [] s'
      else split_lines (c :: cur) s'
  end.

Definition read (content : text) : text := universal_newlines content.

Definition readlines (content : text) : list text :=
  split_lines [] (universal_newlines content).

End Text.

(** ** The fragment of [re] the source uses

    Both patterns of the source are sequences of literals, of [\s*], of
    [\d+] and of [\d{n}].  A pattern is a list of items; an item is an atom,
    inside a capturing group ([Cap]) or not ([Tok]).  The matcher is the
    backtracking one of [re]: a repetition is greedy and gives characters
    back when what follows fails on the rest. *)

Module Re.
Import Text.

Inductive atom :=
| Lit (l : text)                      (* the characters of [l] *)
| Star (cls : ascii -> bool)          (* [cls*] *)
| Plus (cls : ascii -> bool)          (* [cls+] *)
| Rep (n : nat) (cls : ascii -> bool) (* [cls{n}] *).

Inductive item :=
| Tok (a : atom)
| Cap (a : atom).

Definition atom_of (it : item) : atom :=
  match it with Tok a | Cap a => a end.

Definition is_cap (it : item) : bool :=
  match it with Tok _ => false | Cap _ => true end.

Fixpoint take_class (cls : ascii -> bool) (n : nat) (s : text)
  : option (text * text) :=
  match n with
  | O => Some ([], s)
  | S n' =>
      match s with
      | c :: s' =>
          if cls c then
            match take_class cls n' s' with
            | Some (p, r) => Some (c :: p, r)
            | None => None
            end
          else None
      | [] => None
      end
  end.

(** [greedy cls k s]: the longest run of [cls] at the head of [s] after
    which the continuation [k] succeeds, with what [k] returned. *)
Fixpoint greedy {R} (cls : ascii -> bool) (k : text -> option R) (s : text)
  : option (text * R) :=
  match s with
  | c :: s' =>
      if cls c then
        match greedy cls k s' with
        | Some (p, r) => Some (c :: p, r)
        | None => pair [] <$> k s
        end
      else pair [] <$> k s
  | [] => pair [] <$> k []
  end.

Definition match_atom {R} (a : atom) (k : text -> option R) (s : text)
  : option (text * R) :=
  match a with
  | Lit l =>
      match strip_prefix l s with
      | Some s' => pair l <$> k s'
      | None => None
      end
  | Star cls => greedy cls k s
  | Plus cls =>
      match s with
      | c :: s' =>
          if cls c then
            match greedy cls k s' with
            | Some (p, r) => Some (c :: p, r)
            | None => None
            end
          else None
      | [] => None
      end
  | Rep n cls =>
      match take_class cls n s with
      | Some (p, s') => pair p <$> k s'
      | None => None
      end
  end.

(** [pattern.match(s)]: the pieces matched by the capturing items, in
    order, and the text left after the match. *)
Fixpoint re_match (its : list item) (s : text) : option (list text * text) :=
  match its with
  | [] => Some ([], s)
  | it :: its' =>
      match match_atom (atom_of it) (re_match its') s with
      | Some (p, (caps, rest)) =>
          Some (if is_cap it then p :: caps else caps, rest)
      | None => None
      end
  end.

(** [pattern.findall(s)]: the matches from left to right, none
    overlapping another.  [skip] counts the characters of the last match
    that are still to be passed over. *)
Fixpoint findall_from (its : list item) (skip : nat) (s : text)
  : list (list text) :=
  match s with
  | [] => []
  | _ :: s' =>
      match skip with
      | S k => findall_from its k s'
      | O =>
          match re_match its s with
          | Some (caps, rest) =>
              caps :: findall_from its (pred (length s - length rest)) s'
          | None => findall_from its 0 s'
          end
      end
  end.

Definition findall (its : list item) (s : text) : list (list text) :=
  findall_from its 0 s.

End Re.

(** ** [datetime], as far as the log mining needs it *)

Module Datetime.
Import Text Re.
Local Open Scope Z_scope.

Record datetime := {
  year : Z; month : Z; day : Z;
  hour : Z; minute : Z; second : Z
}.

Definition is_leap (y : Z) : bool :=
  (y mod 4 =? 0) && (negb (y mod 100 =? 0) || (y mod 400 =? 0)).

Definition days_in_month (y m : Z) : Z :=
  if m =? 2 then (if is_leap y then 29 else 28)
  else if (m =? 4) || (m =? 6) || (m =? 9) || (m =? 11) then 30
  else 31.

Definition days_before_year (y : Z) : Z :=
  let y1 := y - 1 in y1 * 365 + y1 / 4 - y1 / 100 + y1 / 400.

Definition days_before_month (y m : Z) : Z :=
  fold_left (fun acc k => acc + days_in_month y (Z.of_nat k))
            (seq 1 (Z.to_nat (m - 1))) 0.

(** [datetime.toordinal()]: day 1 is 0001-01-01. *)
Definition toordinal (d : datetime) : Z :=
  days_before_year (year d) + days_before_month (year d) (month d) + day d.

(** The constructor of [datetime] raises [ValueError] outside these
    ranges. *)
Definition valid (d : datetime) : bool :=
  (1 <=? year d) && (year d <=? 9999)
  && (1 <=? month d) && (month d <=? 12)
  && (1 <=? day d) && (day d <=? days_in_month (year d) (month d))
  && (0 <=? hour d) && (hour d <=? 23)
  && (0 <=? minute d) && (minute d <=? 59)
  && (0 <=? second d) && (second d <=? 59).

(** The format ["%Y-%m-%d %H:%M:%S"] on the fixed-width text that
    [ts_pattern] hands over. *)
Definition strptime_format : list item :=
  [ Cap (Rep 4 isdigit); Tok (Lit (txt "-")); Cap (Rep 2 isdigit);
    Tok (Lit (txt "-")); Cap (Rep 2 isdigit); Tok (Lit (txt " "));
    Cap (Rep 2 isdigit); Tok (Lit (txt ":")); Cap (Rep 2 isdigit);
    Tok (Lit (txt ":")); Cap (Rep 2 isdigit) ].

(** [datetime.strptime(s, "%Y-%m-%d %H:%M:%S")]; [None] is [ValueError]. *)
Definition strptime (s : text) : option datetime :=
  match re_match strptime_format s with
  | Some ([y; m; d; hh; mm; ss], []) =>
      let dt := {| year := int_of_digits y; month := int_of_digits m;
                   day := int_of_digits d; hour := int_of_digits hh;
                   minute := int_of_digits mm;
                   second := int_of_digits ss |} in
      if valid dt then Some dt else None
  | _ => None
  end.

(** [(a - b).total_seconds()]. *)
Definition seconds_between (a b : datetime) : Z :=
  (toordinal a - toordinal b) * 86400
  + (hour a - hour b) * 3600 + (minute a - minute b) * 60
  + (second a - second b).

End Datetime.

(** ** Log mining: the bodies of the two [MetadataCollector] methods *)

Module LogMining.
Import Text Re Datetime.
Local Open Scope Z_scope.

(** The [usage] dictionary of [get_token_usage]. *)
Record usage := {
  prompt_tokens : Z;
  completion_tokens : Z;
  total_tokens : Z
}.

Definition usage_zero : usage :=
  {| prompt_tokens := 0; completion_tokens := 0; total_tokens := 0 |}.

(** ["usage":\s*\{\s*"prompt_tokens":\s*(\d+),\s*"completion_tokens":
    \s*(\d+),\s*"total_tokens":\s*(\d+)\s*\}] *)
Definition usage_pattern : list item :=
  [ Tok (Lit (quoted "usage" ++ txt ":")); Tok (Star isspace);
    Tok (Lit (txt "{")); Tok (Star isspace);
    Tok (Lit (quoted "prompt_tokens" ++ txt ":")); Tok (Star isspace);
    Cap (Plus isdigit); Tok (Lit (txt ",")); Tok (Star isspace);
    Tok (Lit (quoted "completion_tokens" ++ txt ":")); Tok (Star isspace);
    Cap (Plus isdigit); Tok (Lit (txt ",")); Tok (Star isspace);
    Tok (Lit (quoted "total_tokens" ++ txt ":")); Tok (Star isspace);
    Cap (Plus isdigit); Tok (Star isspace); Tok (Lit (txt "}")) ].

(** One turn of [for match in matches]. *)
Definition add_match (u : usage) (m : list text) : usage :=
  match m with
  | [p_tok; c_tok; t_tok] =>
      {| prompt_tokens := prompt_tokens u + int_of_digits p_tok;
         completion_tokens := completion_tokens u + int_of_digits c_tok;
         total_tokens := total_tokens u + int_of_digits t_tok |}
  | _ => u
  end.

(** The body of [get_token_usage] once [content] is read. *)
Definition token_usage (content : text) : usage :=
  fold_left add_match (findall usage_pattern content) usage_zero.

(** [^\[(\d{4}-\d{2}-\d{2} \d{2}:\d{2}:\d{2})\]] *)
Definition ts_pattern : list item :=
  [ Tok (Lit (txt "[")); Cap (Rep 4 isdigit); Cap (Lit (txt "-"));
    Cap (Rep 2 isdigit); Cap (Lit (txt "-")); Cap (Rep 2 isdigit);
    Cap (Lit (txt " ")); Cap (Rep 2 isdigit); Cap (Lit (txt ":"));
    Cap (Rep 2 isdigit); Cap (Lit (txt ":")); Cap (Rep 2 isdigit);
    Tok (Lit (txt "]")) ].

Definition marker : text := txt "Prompt processing progress".

(** The timestamp of a line: [ts_pattern.match(line)] followed by
    [strptime] of group 1.  [None] is either [continue] of the loop. *)
Definition line_timestamp (line : text) : option datetime :=
  match re_match ts_pattern line with
  | None => None
  | Some (caps, _) => strptime (concat caps)
  end.

(** The local variables of [get_prompt_processing_time]. *)
Record scan := {
  in_block : bool;
  block_start_time : option datetime;
  last_timestamp : option datetime;
  total_duration : Z
}.

Definition scan_init : scan :=
  {| in_block := false; block_start_time := None;
     last_timestamp := None; total_duration := 0 |}.

(** One turn of [for line in lines]. *)
Definition scan_line (st : scan) (line : text) : scan :=
  match line_timestamp line with
  | None => st
  | Some current_ts =>
      if contains marker line then
        if negb (in_block st) then
          {| in_block := true; block_start_time := Some current_ts;
             last_timestamp := Some current_ts;
             total_duration := total_duration st |}
        else
          {| in_block := in_block st;
             block_start_time := block_start_time st;
             last_timestamp := Some current_ts;
             total_duration := total_duration st |}
      else
        if in_block st then
          {| in_block := false; block_start_time := None;
             last_timestamp := Some current_ts;
             total_duration :=
               match block_start_time st with
               | Some start =>
                   total_duration st + seconds_between current_ts start
               | None => total_duration st
               end |}
        else
          {| in_block := in_block st;
             block_start_time := block_start_time st;
             last_timestamp := Some current_ts;
             total_duration := total_duration st |}
  end.

(** [# If log ends while in block] *)
Definition scan_finish (st : scan) : Z :=
  match in_block st, block_start_time st, last_timestamp st with
  | true, Some start, Some last =>
      total_duration st + seconds_between last start
  | _, _, _ => total_duration st
  end.

(** The body of [get_prompt_processing_time] once [lines] is read. *)
Definition prompt_processing_time (lines : list text) : Z :=
  scan_finish (fold_left scan_line lines scan_init).

End LogMining.

(** ** The world an [AgentRunner] acts on *)

Module Os.
Import Text LogMining.

(** A path is the list of its components, first the outermost; the
    current directory is the empty path. *)
Abbreviation path := (list text).

Inductive node :=
| File (content : text)
| Dir.

(** The exceptions that occur. *)
Inductive exn :=
| FileNotFoundError
| NotADirectoryError
| IsADirectoryError
| FileExistsError
| PermissionError
| TimeoutExpired
| NotImplementedError.

Inductive result (A : Type) :=
| Ok (a : A)
| Raise (e : exn).
Arguments Ok {A} a.
Arguments Raise {A} e.

(** What a run does that can be observed from outside, in order. *)
Inductive event :=
| Print (line : text)                      (* [print(line)] *)
| Stdout (s : text)                        (* [sys.stdout.write(s)] *)
| Popen (cmd : list text) (pid : option nat)
    (* [subprocess.Popen(cmd)]: the child it started, or [None] when it
       raised *)
| Exited (pid : nat) (returncode : Z)      (* [process.wait()] returned *)
| Terminate (pid : nat)                    (* [process.terminate()] *)
| Kill (pid : nat)                         (* [process.kill()] *)
| Close (p : path)                         (* [f.close()] of an open file *)
| RunScript (name : text)                  (* [subprocess.run] of a script *)
| Report (tokens : usage) (prompt_time : Z)(* [generate_html_report] *).

(** An open file object. *)
Record file_obj := { fname : path; closed : bool }.

(** The file system, the child processes that are alive, the trace, and
    the two attributes of the runner that change after [__init__]:
    [self.log_process] and [self.server_log_file] (for the second, [None]
    is the attribute not being there yet). *)
Record world := {
  fs : gmap path node;
  running : gset nat;
  next_pid : nat;
  trace : list event;
  log_process : option nat;
  server_log_file : option file_obj
}.

Definition with_fs (f : gmap path node) (w : world) : world :=
  {| fs := f; running := running w; next_pid := next_pid w;
     trace := trace w; log_process := log_process w;
     server_log_file := server_log_file w |}.

Definition with_running (r : gset nat) (n : nat) (w : world) : world :=
  {| fs := fs w; running := r; next_pid := n;
     trace := trace w; log_process := log_process w;
     server_log_file := server_log_file w |}.

Definition with_trace (t : list event) (w : world) : world :=
  {| fs := fs w; running := running w; next_pid := next_pid w;
     trace := t; log_process := log_process w;
     server_log_file := server_log_file w |}.

Definition with_log_process (p : option nat) (w : world) : world :=
  {| fs := fs w; running := running w; next_pid := next_pid w;
     trace := trace w; log_process := p;
     server_log_file := server_log_file w |}.

Definition with_server_log_file (f : option file_obj) (w : world)
  : world :=
  {| fs := fs w; running := running w; next_pid := next_pid w;
     trace := trace w; log_process := log_process w;
     server_log_file := f |}.

(** What the processes outside the program do. *)
Inductive launch :=
| CannotLaunch (e : exn)
    (* [Popen] raises: executable missing, not permitted *)
| Runs (out : list text) (returncode : Z) (files : list (text * text))
    (* the lines written to standard output and standard error, the exit
       code, and the files left in the working directory *).

Inductive script_run :=
| ScriptFails (e : exn)                 (* time-out or launch error *)
| ScriptDone (stdout stderr : text).

Record env := {
  agent : list text -> launch;          (* the agent, by command line *)
  lms_launches : option exn;            (* [lms log stream]: [None] is yes *)
  logger_output : text;                 (* what it streams while alive *)
  logger_exits_in_time : bool;          (* within 2 s of [terminate] *)
  script : text -> text -> script_run;  (* [python3 name], by content *)
  json_dump : text -> text              (* [opencode.json] for a model *)
}.

(** *** The monad: state, and exceptions that keep the state *)

Definition M (A : Type) : Type := world -> result A * world.

Definition ret {A} (a : A) : M A := fun w => (Ok a, w).

Definition bind {A B} (m : M A) (k : A -> M B) : M B :=
  fun w => match m w with
           | (Ok a, w') => k a w'
           | (Raise e, w') => (Raise e, w')
           end.

Definition raise {A} (e : exn) : M A := fun w => (Raise e, w).

(** [try: m  except Exception as e: h e]. *)
Definition try_except {A} (m : M A) (h : exn -> M A) : M A :=
  fun w => match m w with
           | (Ok a, w') => (Ok a, w')
           | (Raise e, w') => h e w'
           end.

(** [try: m  finally: fin]. *)
Definition try_finally {A} (m : M A) (fin : M unit) : M A :=
  fun w => match m w with
           | (r, w') =>
               match fin w' with
               | (Ok _, w'') => (r, w'')
               | (Raise e, w'') => (Raise e, w'')
               end
           end.

Definition get {A} (f : world -> A) : M A := fun w => (Ok (f w), w).
Definition modify (f : world -> world) : M unit := fun w => (Ok tt, f w).

Definition emit (e : event) : M unit :=
  modify (fun w => with_trace (trace w ++ [e]) w).

Definition print (line : text) : M unit := emit (Print line).

Fixpoint for_each {A} (l : list A) (body : A -> M unit) : M unit :=
  match l with
  | [] => ret tt
  | x :: l' => bind (body x) (fun _ => for_each l' body)
  end.

End Os.

Declare Scope py_scope.
Delimit Scope py_scope with py.
Notation "x <- m ;; k" := (Os.bind m (fun x => k))
  (at level 100, m at next level, right associativity) : py_scope.
Notation "m ;; k" := (Os.bind m (fun _ => k))
  (at level 100, right associativity) : py_scope.

(** ** Files and processes *)

Module Sys.
Import Text LogMining Os.
Local Open Scope py_scope.

(** [sep.join(parts)]. *)
Fixpoint join (sep : text) (parts : list text) : text :=
  match parts with
  | [] => []
  | [x] => x
  | x :: rest => x ++ sep ++ join sep rest
  end.

(** [str(path)]. *)
Definition str_of_path (p : path) : text :=
  match p with
  | [] => txt "."
  | _ => join (txt "/") p
  end.

(** [str(e)], reduced to the name of the exception. *)
Definition str_of_exn (e : exn) : text :=
  match e with
  | FileNotFoundError => txt "FileNotFoundError"
  | NotADirectoryError => txt "NotADirectoryError"
  | IsADirectoryError => txt "IsADirectoryError"
  | FileExistsError => txt "FileExistsError"
  | PermissionError => txt "PermissionError"
  | TimeoutExpired => txt "TimeoutExpired"
  | NotImplementedError => txt "NotImplementedError"
  end.

(** The node at a path; the current directory is always there. *)
Definition node_at (f : gmap path node) (p : path) : option node :=
  match p with
  | [] => Some Dir
  | _ => f !! p
  end.

(** [path.exists()]. *)
Definition path_exists (p : path) : M bool :=
  get (fun w => match node_at (fs w) p with Some _ => true | None => false end).

(** [shutil.rmtree(p)]: the directory and all below it. *)
Definition rmtree (p : path) : M unit :=
  fun w =>
    match node_at (fs w) p with
    | Some Dir =>
        (Ok tt, with_fs (filter (fun kv => ~ p `prefix_of` kv.1) (fs w)) w)
    | Some (File _) => (Raise NotADirectoryError, w)
    | None => (Raise FileNotFoundError, w)
    end.

(** [p.mkdir(parents=True, exist_ok=True)], for [p = pre / rest]: every
    missing directory on the way is made; a regular file on the way is an
    error. *)
Fixpoint mkdir_from (pre : path) (rest : list text) (f : gmap path node)
  : result (gmap path node) :=
  match rest with
  | [] => Ok f
  | c :: rest' =>
      let q := pre ++ [c] in
      match f !! q with
      | Some (File _) =>
          Raise (match rest' with
                 | [] => FileExistsError
                 | _ => NotADirectoryError
                 end)
      | Some Dir => mkdir_from q rest' f
      | None => mkdir_from q rest' (<[q := Dir]> f)
      end
  end.

Definition mkdir_parents (p : path) : M unit :=
  fun w =>
    match mkdir_from [] p (fs w) with
    | Ok f => (Ok tt, with_fs f w)
    | Raise e => (Raise e, w)
    end.

(** What [open] checks before it looks at the file itself. *)
Definition parent_error (f : gmap path node) (p : path) : option exn :=
  match node_at f (removelast p) with
  | Some Dir => None
  | Some (File _) => Some NotADirectoryError
  | None => Some FileNotFoundError
  end.

(** [open(p, "w")]: the file is created, or emptied. *)
Definition open_w (p : path) : M file_obj :=
  fun w =>
    match parent_error (fs w) p, node_at (fs w) p with
    | Some e, _ => (Raise e, w)
    | None, Some Dir => (Raise IsADirectoryError, w)
    | None, _ =>
        (Ok {| fname := p; closed := false |},
         with_fs (<[p := File []]> (fs w)) w)
    end.

(** [open(p, "a")]: the file is created when it is not there. *)
Definition open_a (p : path) : M file_obj :=
  fun w =>
    match parent_error (fs w) p, node_at (fs w) p with
    | Some e, _ => (Raise e, w)
    | None, Some Dir => (Raise IsADirectoryError, w)
    | None, Some (File _) => (Ok {| fname := p; closed := false |}, w)
    | None, None =>
        (Ok {| fname := p; closed := false |},
         with_fs (<[p := File []]> (fs w)) w)
    end.

Definition append_node (s : text) (n : node) : node :=
  match n with
  | File c => File (c ++ s)
  | Dir => Dir
  end.

(** [f.write(s)], followed sooner or later by a flush. *)
Definition write (f : file_obj) (s : text) : M unit :=
  modify (fun w => with_fs (alter (append_node s) (fname f) (fs w)) w).

(** [f.close()]; on a closed file it does nothing. *)
Definition close (f : file_obj) : M file_obj :=
  if closed f then ret f
  else (emit (Close (fname f));;
        ret {| fname := fname f; closed := true |}).

(** [open(p, "r")] and the whole content, as it is on disk. *)
Definition read_file (p : path) : M text :=
  fun w =>
    match node_at (fs w) p with
    | Some (File c) => (Ok c, w)
    | Some Dir => (Raise IsADirectoryError, w)
    | None => (Raise FileNotFoundError, w)
    end.

(** [with open(p, "w") as f: body f]. *)
Definition with_open_w {A} (p : path) (body : file_obj -> M A) : M A :=
  f <- open_w p ;;
  try_finally (body f) (_ <- close f ;; ret tt).

Definition with_open_a {A} (p : path) (body : file_obj -> M A) : M A :=
  f <- open_a p ;;
  try_finally (body f) (_ <- close f ;; ret tt).

(** A new child process. *)
Definition spawn (cmd : list text) : M nat :=
  pid <- get next_pid ;;
  modify (fun w => with_running ({[pid]} ∪ running w) (S pid) w) ;;
  emit (Popen cmd (Some pid)) ;;
  ret pid.

Definition reap (pid : nat) : M unit :=
  modify (fun w => with_running (running w ∖ {[pid]}) (next_pid w) w).

Fixpoint strip_prefix_path (d q : path) : option path :=
  match d, q with
  | [], _ => Some q
  | a :: d', b :: q' =>
      if bool_decide (a = b) then strip_prefix_path d' q' else None
  | _ :: _, [] => None
  end.

(** The names directly inside a directory, as [glob("*")] lists them. *)
Definition listdir (f : gmap path node) (d : path) : list text :=
  omap (fun q => match strip_prefix_path d q with
                 | Some [name] => Some name
                 | _ => None
                 end)
       (map fst (map_to_list f)).

End Sys.

(** ** [MetadataCollector]: the two log-mining methods *)

Module MetadataCollector.
Import Text LogMining Os Sys.
Local Open Scope py_scope.

Definition get_token_usage (log_path : path) : M usage :=
  here <- path_exists log_path ;;
  if negb here then ret usage_zero
  else
    try_except
      (content <- read_file log_path ;;
       ret (token_usage (read content)))
      (fun e =>
         print (txt "[-] Error parsing token usage: " ++ str_of_exn e) ;;
         ret usage_zero).

Definition get_prompt_processing_time (log_path : path) : M Z :=
  here <- path_exists log_path ;;
  if negb here then ret 0%Z
  else
    try_except
      (content <- read_file log_path ;;
       ret (prompt_processing_time (readlines content)))
      (fun e =>
         print (txt "[-] Error calculating prompt processing time: "
                ++ str_of_exn e) ;;
         ret 0%Z).

End MetadataCollector.

(** ** [AgentRunner] and its subclasses *)

Module AgentRunner.
Import Text LogMining Os Sys.
Local Open Scope py_scope.

Definition EVALS_DIR : path := [txt "evals"].
Definition SERVER_LOG_FILENAME : text := txt "SERVER.LOG".
Definition CHAT_SESSION_FILENAME : text := txt "CHAT_SESSION.TXT".

(** The class of a runner: the base class and its five subclasses. *)
Inductive runner_class :=
| BaseRunner
| GeminiRunner
| ClaudeRunner
| VibeRunner
| OpenCodeRunner
| CrushRunner.

(** The attributes [__init__] sets once and for all. *)
Record runner := {
  cls : runner_class;
  agent_name : text;
  model_name : text;
  prompt_file : path;
  headless : bool;
  agent_binary : text;
  safe_model_name : text;
  work_dir : path
}.

(** [self.binary_map.get(agent_name, agent_name)]. *)
Definition binary_map_get (agent_name : text) : text :=
  if bool_decide (agent_name = txt "mistral") then txt "vibe"
  else agent_name.

(** The index of the last ['.'] of a name, as [name.rfind('.')] finds
    it. *)
Fixpoint rfind_dot (i : nat) (name : text) : option nat :=
  match name with
  | [] => None
  | c :: name' =>
      match rfind_dot (S i) name' with
      | Some j => Some j
      | None => if Ascii.eqb c "." then Some i else None
      end
  end.

(** [PurePath.stem]: the last component without its last suffix. *)
Definition stem (p : path) : text :=
  let name := List.last p [] in
  match rfind_dot 0 name with
  | Some i =>
      if ((0 <? i) && (i <? length name - 1))%nat then take i name
      else name
  | None => name
  end.

(** ["".join(c for c in model_name if c.isalnum() or c in ('-', '_'))
    .strip()]. *)
Definition keep_char (c : ascii) : bool :=
  isalnum c || Ascii.eqb c "-" || Ascii.eqb c "_".

Definition make_safe_model_name (model_name : text) : text :=
  strip (List.filter keep_char model_name).

(** [EVALS_DIR / f"{binary}_{safe_model_name}_{prompt_stem}"].  None of
    the three parts holds a ['/'] for the agents [main] accepts, so the
    formatted name is one component. *)
Definition make_work_dir (binary safe : text) (prompt_file : path) : path :=
  EVALS_DIR ++ [binary ++ txt "_" ++ safe ++ txt "_" ++ stem prompt_file].

(** [AgentRunner.__init__]; [self.log_process = None] is the state of the
    world the runner starts in. *)
Definition init (c : runner_class) (agent_name model_name : text)
    (prompt_file : path) (headless : bool) : runner :=
  let binary := binary_map_get agent_name in
  let safe := make_safe_model_name model_name in
  {| cls := c; agent_name := agent_name; model_name := model_name;
     prompt_file := prompt_file; headless := headless;
     agent_binary := binary; safe_model_name := safe;
     work_dir := make_work_dir binary safe prompt_file |}.

Section Methods.
Variable E : env.
Variable self : runner.

Definition setup_workspace : M unit :=
  here <- path_exists (work_dir self) ;;
  (if here then
     print (txt "[*] Cleaning up existing directory: "
            ++ str_of_path (work_dir self)) ;;
     rmtree (work_dir self)
   else ret tt) ;;
  mkdir_parents (work_dir self) ;;
  print (txt "[+] Created workspace: " ++ str_of_path (work_dir self)).

Definition lms_log_stream : list text :=
  [txt "lms"; txt "log"; txt "stream"; txt "--source"; txt "server"].

(** [subprocess.Popen(["lms", "log", "stream", ...], stdout=f)].  The
    text the logger streams during its life is put in the file as it
    starts: nothing reads the file before the logger is stopped. *)
Definition popen_logger (f : file_obj) : M nat :=
  match lms_launches E with
  | Some e => emit (Popen lms_log_stream None) ;; raise e
  | None =>
      pid <- spawn lms_log_stream ;;
      write f (logger_output E) ;;
      ret pid
  end.

Definition start_server_logger : M unit :=
  let log_path := work_dir self ++ [SERVER_LOG_FILENAME] in
  print (txt "[*] Starting server log stream to: "
         ++ str_of_path log_path) ;;
  try_except
    (f <- open_w log_path ;;
     modify (with_server_log_file (Some f)) ;;
     pid <- popen_logger f ;;
     modify (with_log_process (Some pid)))
    (fun e =>
       print (txt "[-] Failed to start server logger: "
              ++ str_of_exn e)).

(** [self.log_process.wait(timeout=2)]. *)
Definition wait_logger (pid : nat) : M unit :=
  if logger_exits_in_time E then
    reap pid ;; emit (Exited pid (-15))
  else raise TimeoutExpired.

Definition kill (pid : nat) : M unit :=
  reap pid ;; emit (Kill pid).

Definition stop_server_logger : M unit :=
  lp <- get log_process ;;
  match lp with
  | Some pid =>
      print (txt "[*] Stopping server logger...") ;;
      emit (Terminate pid) ;;
      try_except (wait_logger pid) (fun _ => kill pid) ;;
      modify (with_log_process None)
  | None => ret tt
  end ;;
  slf <- get server_log_file ;;
  match slf with
  | Some f =>
      f' <- close f ;;
      modify (with_server_log_file (Some f'))
  | None => ret tt
  end.

(** The two lines [_run_process] ends the transcript with. *)
Definition error_line (returncode : Z) : text :=
  [lf] ++ txt "[ERROR] Process exited with code "
  ++ str_of_int returncode ++ [lf].

Definition success_line : text :=
  [lf] ++ txt "[SUCCESS] Process exited cleanly." ++ [lf].

Definition chat_log_path : path := work_dir self ++ [CHAT_SESSION_FILENAME].

(** The files the agent leaves in its working directory. *)
Definition leave_files (files : list (text * text)) : M unit :=
  for_each files (fun nf =>
    modify (fun w =>
      with_fs (<[work_dir self ++ [nf.1] := File nf.2]> (fs w)) w)).

Definition _run_process (cmd : list text) : M unit :=
  print (txt "[*] Executing: " ++ join (txt " ") cmd) ;;
  print (txt "[*] Output logging to: " ++ str_of_path chat_log_path) ;;
  with_open_w chat_log_path (fun log_file =>
    match agent E cmd with
    | CannotLaunch e => emit (Popen cmd None) ;; raise e
    | Runs out returncode files =>
        pid <- spawn cmd ;;
        for_each out (fun line =>
          emit (Stdout line) ;;
          write log_file line) ;;
        leave_files files ;;
        reap pid ;;
        emit (Exited pid returncode) ;;
        if negb (returncode =? 0)%Z then
          print (txt "[-] Agent finished with error code "
                 ++ str_of_int returncode) ;;
          write log_file (error_line returncode)
        else
          print (txt "[+] Agent finished successfully.") ;;
          write log_file success_line
    end).

Definition configure_agent : M unit :=
  match cls self with
  | OpenCodeRunner =>
      with_open_w (work_dir self ++ [txt "opencode.json"]) (fun f =>
        write f (json_dump E (model_name self)))
  | _ => ret tt
  end.

(** The command line of each agent, around the prompt. *)
Definition command (prompt_content : text) : option (list text) :=
  match cls self with
  | BaseRunner => None
  | GeminiRunner => Some [txt "gemini"; txt "--prompt"; prompt_content]
  | ClaudeRunner =>
      Some [txt "claude"; txt "-p"; prompt_content;
            txt "--dangerously-skip-permissions"]
  | VibeRunner => Some [txt "vibe"; txt "-p"; prompt_content]
  | OpenCodeRunner => Some [txt "opencode"; txt "-p"; prompt_content]
  | CrushRunner => Some [txt "crush"; txt "run"; prompt_content; txt "-y"]
  end.

Definition execute_agent : M unit :=
  match cls self with
  | BaseRunner => raise NotImplementedError
  | _ =>
      content <- read_file (prompt_file self) ;;
      match command (read content) with
      | Some cmd => _run_process cmd
      | None => raise NotImplementedError
      end
  end.

(** [name.endswith(".py")], which is what [glob("*.py")] asks of a
    name. *)
Definition is_py (name : text) : bool :=
  match strip_prefix (rev (txt ".py")) (rev name) with
  | Some _ => true
  | None => false
  end.

Definition separator_line : text :=
  [lf] ++ txt "---------------------------" ++ [lf; lf].

(** One turn of [for py_file in self.work_dir.glob("*.py")]. *)
Definition run_script (name : text) : M unit :=
  if bool_decide (name = txt "evaluate_agent.py") then ret tt
  else
    print (txt "[*] Automatically executing generated script: " ++ name) ;;
    try_except
      (emit (RunScript name) ;;
       src <- get (fun w =>
                match fs w !! (work_dir self ++ [name]) with
                | Some (File c) => c
                | _ => []
                end) ;;
       match script E name src with
       | ScriptFails e => raise e
       | ScriptDone stdout stderr =>
           with_open_a (work_dir self ++ [txt "OUTPUT.TXT"]) (fun f =>
             write f (txt "--- Execution of " ++ name ++ txt " ---"
                      ++ [lf]) ;;
             write f (txt "STDOUT:" ++ [lf]) ;;
             write f stdout ;;
             match stderr with
             | [] => ret tt
             | _ =>
                 write f ([lf] ++ txt "STDERR:" ++ [lf]) ;;
                 write f stderr
             end ;;
             write f separator_line) ;;
           print (txt "[+] Execution of " ++ name
                  ++ txt " finished. Results appended to OUTPUT.TXT")
       end)
      (fun e =>
         print (txt "[-] Execution of " ++ name ++ txt " failed: "
                ++ str_of_exn e)).

(** What [run] does once the logger is stopped: the generated scripts,
    then the report.  Of the report only the two mined figures are
    modelled; its layout, the hardware and software tables and the
    opening of the page are left out. *)
Definition post_run : M unit :=
  names <- get (fun w => List.filter is_py (listdir (fs w) (work_dir self))) ;;
  for_each names run_script ;;
  print (txt "[*] Generating run report...") ;;
  tokens <- MetadataCollector.get_token_usage
              (work_dir self ++ [SERVER_LOG_FILENAME]) ;;
  prompt_time <- MetadataCollector.get_prompt_processing_time
                   (work_dir self ++ [SERVER_LOG_FILENAME]) ;;
  emit (Report tokens prompt_time) ;;
  print (txt "[+] Report generated: "
         ++ str_of_path (work_dir self ++ [txt "summary.html"])).

Definition run : M unit :=
  setup_workspace ;;
  configure_agent ;;
  start_server_logger ;;
  try_finally
    (print (txt "[*] Running " ++ agent_name self ++ txt "...") ;;
     execute_agent)
    stop_server_logger ;;
  post_run.

End Methods.

End AgentRunner.

(** ** The log as a stream of events

    What [get_prompt_processing_time] keeps of a line is its timestamp and
    whether it holds the marker: the [LogEvent] of the specification. *)

Module LogEvents.
Import Text Re Datetime LogMining.

Definition log_event : Type := datetime * bool.

Definition stamp (line : text) : option log_event :=
  match line_timestamp line with
  | Some ts => Some (ts, contains marker line)
  | None => None
  end.

Definition log_events (lines : list text) : list log_event :=
  omap stamp lines.

(** The turn of the loop on a line that has a timestamp. *)
Definition scan_event (st : scan) (e : log_event) : scan :=
  if e.2 then
    if negb (in_block st) then
      {| in_block := true; block_start_time := Some e.1;
         last_timestamp := Some e.1; total_duration := total_duration st |}
    else
      {| in_block := in_block st; block_start_time := block_start_time st;
         last_timestamp := Some e.1; total_duration := total_duration st |}
  else
    if in_block st then
      {| in_block := false; block_start_time := None;
         last_timestamp := Some e.1;
         total_duration :=
           match block_start_time st with
           | Some start => total_duration st + seconds_between e.1 start
           | None => total_duration st
           end |}
    else
      {| in_block := in_block st; block_start_time := block_start_time st;
         last_timestamp := Some e.1; total_duration := total_duration st |}.

(** A log ends inside a block when its last timestamped line is a marker
    line. *)
Definition ends_open (evs : list log_event) : bool :=
  match last evs with
  | Some (_, true) => true
  | _ => false
  end.

End LogEvents.

(** ** The shape of a file system *)

Module FsShape.
Import Text Os Sys.

(** Whatever is in the file system sits in directories. *)
Definition wf_fs (f : gmap path node) : Prop :=
  forall q n, f !! q = Some n ->
  forall k, (0 < k < length q)%nat -> f !! take k q = Some Dir.

(** No regular file at [p] or on the way to it. *)
Definition no_file_on (f : gmap path node) (p : path) : Prop :=
  forall k c, (0 < k <= length p)%nat -> f !! take k p <> Some (File c).

(** [p] is a directory with nothing in it. *)
Definition empty_dir (f : gmap path node) (p : path) : Prop :=
  f !! p = Some Dir
  /\ forall q, p `prefix_of` q -> q <> p -> f !! q = None.

(** [p] and all that leads to it are directories. *)
Definition dirs_to (f : gmap path node) (p : path) : Prop :=
  forall k, (0 < k <= length p)%nat -> f !! take k p = Some Dir.

(** [q] is neither under [p] nor on the way to it. *)
Definition apart (p q : path) : Prop :=
  ~ p `prefix_of` q /\ ~ q `prefix_of` p.

(** The first two, as checks that run. *)
Definition is_dir (n : option node) : bool :=
  match n with Some Dir => true | _ => false end.

Definition is_file (n : option node) : bool :=
  match n with Some (File _) => true | _ => false end.

Definition wf_fsb (f : gmap path node) : bool :=
  forallb (fun kv : path * node =>
             forallb (fun k => is_dir (f !! take k kv.1))
                     (seq 1 (length kv.1 - 1)))
          (map_to_list f).

Definition no_file_onb (f : gmap path node) (p : path) : bool :=
  forallb (fun k => negb (is_file (f !! take k p))) (seq 1 (length p)).

End FsShape.

(** ** Reading a trace *)

Module Traces.
Import Text Os Sys AgentRunner.

(** The two actions that end a process. *)
Definition is_termination (e : event) : bool :=
  match e with
  | Terminate _ | Kill _ => true
  | _ => false
  end.

(** What a computation adds to the trace. *)
Definition adds {A} (m : M A) (w : world) (tr : list event) : Prop :=
  trace (m w).2 = trace w ++ tr.

(** The three kinds of event the order of a run is about: the start of
    the logger, the invocation of the agent (the line that announces it,
    the launch of its process, its output), and the end of a process. *)
Definition is_logger_start (e : event) : bool :=
  match e with
  | Popen cmd _ => bool_decide (cmd = lms_log_stream)
  | _ => false
  end.

Definition is_agent_event (e : event) : bool :=
  match e with
  | Print line =>
      match strip_prefix (txt "[*] Running ") line with
      | Some _ => true
      | None => false
      end
  | Popen cmd _ => negb (bool_decide (cmd = lms_log_stream))
  | Stdout _ => true
  | _ => false
  end.

(** Events of none of the three kinds. *)
Definition is_bystander (e : event) : bool :=
  negb (is_agent_event e || is_logger_start e || is_termination e).

(** What the invocation of the agent may add. *)
Definition by_agent (e : event) : bool :=
  negb (is_logger_start e || is_termination e).

(** What starting the logger may add. *)
Definition by_start (e : event) : bool :=
  negb (is_agent_event e || is_termination e).

(** What stopping the logger may add. *)
Definition by_stop (e : event) : bool :=
  negb (is_agent_event e || is_logger_start e).

(** [quiet P m]: whatever the world, [m] leaves [self.log_process] as it
    is, and what it adds to the trace are events of kind [P]. *)
Definition quiet {A} (P : event -> bool) (m : M A) : Prop :=
  forall w,
    log_process (m w).2 = log_process w
    /\ exists tr, trace (m w).2 = trace w ++ tr /\ forallb P tr = true.

(** What only the part of [run] after the logger is stopped does: running
    a generated script, making the report. *)
Definition is_post_run (e : event) : bool :=
  match e with
  | RunScript _ | Report _ _ => true
  | _ => false
  end.

Definition not_post_run (e : event) : bool := negb (is_post_run e).

(** [adds_only P m]: whatever the world, what [m] adds to the trace are
    events of kind [P]. *)
Definition adds_only {A} (P : event -> bool) (m : M A) : Prop :=
  forall w, exists tr, trace (m w).2 = trace w ++ tr /\ forallb P tr = true.

(** The scripts a trace shows to have been run, in order. *)
Definition script_names (tr : list event) : list text :=
  omap (fun e => match e with RunScript name => Some name | _ => None end) tr.

Definition not_run_script (e : event) : bool :=
  match e with RunScript _ => false | _ => true end.

(** The names [post_run] finds for execution. *)
Definition scripts_to_run (f : gmap path node) (self : runner) : list text :=
  List.filter (fun n => negb (bool_decide (n = txt "evaluate_agent.py")))
              (List.filter is_py (listdir f (work_dir self))).

(** The parts of [run] around the invocation of the agent. *)
Definition before_agent (E : env) (self : runner) : M unit :=
  (setup_workspace self ;;
   configure_agent E self ;;
   start_server_logger E self)%py.

Definition invocation (E : env) (self : runner) : M unit :=
  (print (txt "[*] Running " ++ agent_name self ++ txt "...") ;;
   execute_agent E self)%py.

(** The line that ends the transcript of an agent that ran. *)
Definition outcome_line (returncode : Z) : text :=
  if (returncode =? 0)%Z then success_line else error_line returncode.

End Traces.

(** ** Sample logs and worlds *)

Module Samples.
Import Text Re Datetime LogMining Os Sys.

(** A world with nothing in it but one log file. *)
Definition world_of_log (p : path) (content : text) : world :=
  {| fs := {[ p := File content ]}; running := ∅; next_pid := 0;
     trace := []; log_process := None; server_log_file := None |}.

Definition server_log : path :=
  [txt "evals"; txt "vibe_m_fib_prompt"; txt "SERVER.LOG"].

(** The usage text of the example: braces, but no ["usage":] in front. *)
Definition bare_record : text :=
  txt "{" ++ quoted "prompt_tokens" ++ txt ":10,"
  ++ quoted "completion_tokens" ++ txt ":5,"
  ++ quoted "total_tokens" ++ txt ":15}".

Definition example_head : text :=
  txt "[2026-01-18 18:10:43] Prompt processing progress" ++ [lf]
  ++ txt "[2026-01-18 18:10:46] done" ++ [lf].

Definition example_log : text := example_head ++ bare_record ++ [lf].

(** The same log with the key the pattern asks for. *)
Definition keyed_log : text :=
  example_head ++ quoted "usage" ++ txt ":" ++ bare_record ++ [lf].

Definition tally_10_5_15 : usage :=
  {| prompt_tokens := 10; completion_tokens := 5; total_tokens := 15 |}.

(** A log with one usage record and no timestamp anywhere. *)
Definition untimed_log : text :=
  txt "request served" ++ [lf]
  ++ quoted "usage" ++ txt ": {" ++ quoted "prompt_tokens" ++ txt ": 1, "
  ++ quoted "completion_tokens" ++ txt ": 2, "
  ++ quoted "total_tokens" ++ txt ": 3}" ++ [lf].

(** A log without a record and without a timestamp. *)
Definition open_log : text :=
  txt "[2026-01-18 18:10:40] Prompt processing progress" ++ [lf]
  ++ txt "[2026-01-18 18:10:42] done" ++ [lf]
  ++ txt "idle" ++ [lf]
  ++ txt "[2026-01-18 18:11:00] Prompt processing progress: 10%" ++ [lf]
  ++ txt "  continuation without a timestamp" ++ [lf]
  ++ txt "[2026-01-18 18:11:07] Prompt processing progress: 80%" ++ [lf].

Definition open_pre : list text := take 3 (readlines open_log).
Definition open_blk : list text := drop 3 (readlines open_log).

Definition at_18_11 (s : Z) : datetime :=
  {| year := 2026; month := 1; day := 18;
     hour := 18; minute := 11; second := s |}.

Definition plain_log : text :=
  txt "server started" ++ [lf] ++ txt "[not a timestamp] idle" ++ [lf].

(** A block whose closing line carries an earlier time than its first
    line. *)
Definition backwards_log : text :=
  txt "[2026-01-18 18:10:46] Prompt processing progress" ++ [lf]
  ++ txt "[2026-01-18 18:10:43] done" ++ [lf].

(** A runner, and a world in which its work directory already holds the
    artifacts of an earlier run. *)
Definition vibe_runner : AgentRunner.runner :=
  AgentRunner.init AgentRunner.VibeRunner (txt "vibe") (txt "foobar")
    [txt "prompts"; txt "fib_prompt.md"] true.

Definition earlier_runner : AgentRunner.runner :=
  AgentRunner.init AgentRunner.VibeRunner (txt "vibe") (txt "foo.bar")
    [txt "prompts"; txt "fib_prompt.md"] true.

Definition used_dir : path := [txt "evals"; txt "vibe_foobar_fib_prompt"].

Definition used_fs : gmap path node :=
  list_to_map
    [ ([txt "evals"], Dir);
      (used_dir, Dir);
      (used_dir ++ [txt "fibonacci.py"], File (txt "print(1)"));
      (used_dir ++ [txt "cache"], Dir);
      (used_dir ++ [txt "cache"; txt "old.bin"], File (txt "x"));
      ([txt "prompts"], Dir);
      ([txt "prompts"; txt "fib_prompt.md"], File (txt "Write fib.")) ].

Definition used_world : world :=
  {| fs := used_fs; running := ∅; next_pid := 0; trace := [];
     log_process := None; server_log_file := None |}.

(** A machine on which [vibe] is installed and answers with two lines and
    exit code 1, no other agent is installed, and the logger works. *)
Definition vibe_only (cmd : list text) : launch :=
  match cmd with
  | prog :: _ =>
      if bool_decide (prog = txt "vibe") then
        Runs [txt "thinking" ++ [lf]; txt "gave up" ++ [lf]] 1
             [(txt "fibonacci.py", txt "print(1)")]
      else CannotLaunch FileNotFoundError
  | [] => CannotLaunch FileNotFoundError
  end.

Definition vibe_machine : env :=
  {| agent := vibe_only;
     lms_launches := None;
     logger_output := open_log;
     logger_exits_in_time := true;
     script := fun _ _ => ScriptDone (txt "1" ++ [lf]) [];
     json_dump := fun model => model |}.

Definition vibe_cmd : list text := [txt "vibe"; txt "-p"; txt "Write fib."].
Definition gemini_cmd : list text :=
  [txt "gemini"; txt "--prompt"; txt "Write fib."].

Definition gemini_runner : AgentRunner.runner :=
  AgentRunner.init AgentRunner.GeminiRunner (txt "gemini") (txt "foobar")
    [txt "prompts"; txt "fib_prompt.md"] true.

(** The world of a run of [gemini_runner] on [vibe_machine] when the logger
    has been started, and when the invocation has failed. *)
Definition gemini_started : world :=
  Eval vm_compute in
    (Traces.before_agent vibe_machine gemini_runner used_world).2.

Definition gemini_failed : world :=
  Eval vm_compute in
    (Traces.invocation vibe_machine gemini_runner gemini_started).2.

End Samples.

(** * Properties *)

(** ** Running the monad *)

Module MonadFacts.
Import Text Os Sys.

Lemma bind_ok {A B} (m : M A) (k : A -> M B) w a w' :
  m w = (Ok a, w') -> bind m k w = k a w'.
Proof. intros H. unfold bind. rewrite H. reflexivity. Qed.

Lemma bind_raise {A B} (m : M A) (k : A -> M B) w e w' :
  m w = (Raise e, w') -> bind m k w = (Raise e, w').
Proof. intros H. unfold bind. rewrite H. reflexivity. Qed.

Lemma try_finally_ok {A} (m : M A) (fin : M unit) w r w' w'' :
  m w = (r, w') -> fin w' = (Ok tt, w'') -> try_finally m fin w = (r, w'').
Proof. intros Hm Hf. unfold try_finally. rewrite Hm, Hf. reflexivity. Qed.

Lemma try_except_ok {A} (m : M A) (h : exn -> M A) w a w' :
  m w = (Ok a, w') -> try_except m h w = (Ok a, w').
Proof. intros H. unfold try_except. rewrite H. reflexivity. Qed.

Lemma try_except_raise {A} (m : M A) (h : exn -> M A) w e w' :
  m w = (Raise e, w') -> try_except m h w = h e w'.
Proof. intros H. unfold try_except. rewrite H. reflexivity. Qed.

Lemma print_run line w :
  print line w = (Ok tt, with_trace (trace w ++ [Print line]) w).
Proof. reflexivity. Qed.

Lemma emit_run e w :
  emit e w = (Ok tt, with_trace (trace w ++ [e]) w).
Proof. reflexivity. Qed.

(** Closes [trace w' = trace w ++ ?tr] once both sides are computed. *)
Ltac trace_eq :=
  simpl; repeat rewrite <- app_assoc; simpl;
  first [reflexivity | symmetry; apply app_nil_r].

End MonadFacts.

(** ** Reading the log through the file system *)

Module CollectorFacts.
Import Text Re Datetime LogMining Os Sys MetadataCollector Samples.

Lemma node_at_world_of_log p content :
  p <> [] -> node_at (fs (world_of_log p content)) p = Some (File content).
Proof.
  intros Hp. destruct p as [|c p]; [done|].
  simpl. apply lookup_singleton_eq.
Qed.

(** On a log that is a regular file both methods return what their bodies
    compute on its content, and leave the world as it is. *)
Lemma get_token_usage_file w p content :
  node_at (fs w) p = Some (File content) ->
  get_token_usage p w = (Ok (token_usage (read content)), w).
Proof.
  intros H. unfold get_token_usage, bind, path_exists, get, try_except,
    read_file, ret. rewrite H. simpl. rewrite H. reflexivity.
Qed.

Lemma get_prompt_processing_time_file w p content :
  node_at (fs w) p = Some (File content) ->
  get_prompt_processing_time p w
  = (Ok (prompt_processing_time (readlines content)), w).
Proof.
  intros H. unfold get_prompt_processing_time, bind, path_exists, get,
    try_except, read_file, ret. rewrite H. simpl. rewrite H. reflexivity.
Qed.

(** An absent log is no error: zero tally, zero duration. *)
Lemma get_token_usage_absent w p :
  node_at (fs w) p = None -> get_token_usage p w = (Ok usage_zero, w).
Proof.
  intros H. unfold get_token_usage, bind, path_exists, get. rewrite H.
  reflexivity.
Qed.

Lemma get_prompt_processing_time_absent w p :
  node_at (fs w) p = None -> get_prompt_processing_time p w = (Ok 0%Z, w).
Proof.
  intros H. unfold get_prompt_processing_time, bind, path_exists, get.
  rewrite H. reflexivity.
Qed.

End CollectorFacts.

(** ** The example of the specification *)

Module Example.
Import Text Re Datetime LogMining Os Sys MetadataCollector Samples CollectorFacts.

(** C2, as the code has it.  On the log of the example, wherever it is
    stored, [get_prompt_processing_time] returns 3 seconds and
    [get_token_usage] returns the zero tally: the usage text of the example
    has no ["usage":] key, which the pattern requires.  With the key in
    front of the braces the tally is 10, 5, 15 and the duration is still 3
    seconds. *)
Theorem example_log_mined (w w' : world) (p : path)
    (Hlog : node_at (fs w) p = Some (File example_log))
    (Hkeyed : node_at (fs w') p = Some (File keyed_log)) :
  get_prompt_processing_time p w = (Ok 3%Z, w)
  /\ get_token_usage p w = (Ok usage_zero, w)
  /\ get_prompt_processing_time p w' = (Ok 3%Z, w')
  /\ get_token_usage p w' = (Ok tally_10_5_15, w').
Proof.
  rewrite (get_prompt_processing_time_file _ _ _ Hlog).
  rewrite (get_token_usage_file _ _ _ Hlog).
  rewrite (get_prompt_processing_time_file _ _ _ Hkeyed).
  rewrite (get_token_usage_file _ _ _ Hkeyed).
  repeat split; vm_compute; reflexivity.
Qed.

Lemma example_log_mined_witness :
  get_prompt_processing_time server_log (world_of_log server_log example_log)
  = (Ok 3%Z, world_of_log server_log example_log)
  /\ get_token_usage server_log (world_of_log server_log example_log)
     = (Ok usage_zero, world_of_log server_log example_log)
  /\ get_prompt_processing_time server_log
       (world_of_log server_log keyed_log)
     = (Ok 3%Z, world_of_log server_log keyed_log)
  /\ get_token_usage server_log (world_of_log server_log keyed_log)
     = (Ok tally_10_5_15, world_of_log server_log keyed_log).
Proof.
  apply (example_log_mined (world_of_log server_log example_log)
           (world_of_log server_log keyed_log) server_log);
    vm_compute; reflexivity.
Defined.

(** C2 as stated fails: on the log of the example the tally is not
    10, 5, 15. *)
Lemma example_log_tally_differs :
  fst (get_token_usage server_log (world_of_log server_log example_log))
  <> Ok tally_10_5_15.
Proof.
  rewrite (get_token_usage_file _ _ example_log) by reflexivity.
  vm_compute. discriminate.
Qed.

End Example.

(** ** Logs without timestamps, logs out of order *)

Module Untimed.
Import Text Re Datetime LogMining Os Sys MetadataCollector Samples CollectorFacts.

(** A line without a timestamp leaves the scan where it is. *)
Lemma scan_line_untimed st line :
  line_timestamp line = None -> scan_line st line = st.
Proof. intros H. unfold scan_line. rewrite H. reflexivity. Qed.

Lemma scan_untimed lines st :
  Forall (fun l => line_timestamp l = None) lines ->
  fold_left scan_line lines st = st.
Proof.
  intros H. revert st. induction H as [|l ls Hl _ IH]; intros st.
  - reflexivity.
  - simpl. rewrite scan_line_untimed by exact Hl. apply IH.
Qed.

(** C3 as stated fails: [untimed_log] has no timestamped line, and its
    tally is 1, 2, 3. *)
Lemma untimed_log_tally_not_zero :
  Forall (fun l => line_timestamp l = None) (readlines untimed_log)
  /\ fst (get_token_usage server_log (world_of_log server_log untimed_log))
     <> Ok usage_zero.
Proof.
  split.
  - vm_compute. repeat constructor.
  - rewrite (get_token_usage_file _ _ untimed_log) by reflexivity.
    vm_compute. discriminate.
Qed.

(** C3, as the code has it.  For every log file none of whose lines
    begins with a parseable timestamp, [get_prompt_processing_time]
    returns 0.  The tally of [get_token_usage] does not look at
    timestamps: it is zero when, in addition, the usage pattern occurs
    nowhere in the log. *)
Theorem untimed_log_mined (w : world) (p : path) (content : text)
    (Hfile : node_at (fs w) p = Some (File content))
    (Huntimed : Forall (fun l => line_timestamp l = None)
                       (readlines content)) :
  get_prompt_processing_time p w = (Ok 0%Z, w)
  /\ (findall usage_pattern (read content) = [] ->
      get_token_usage p w = (Ok usage_zero, w)).
Proof.
  split.
  - rewrite (get_prompt_processing_time_file _ _ _ Hfile).
    unfold prompt_processing_time. rewrite scan_untimed by exact Huntimed.
    reflexivity.
  - intros Hnone. rewrite (get_token_usage_file _ _ _ Hfile).
    unfold token_usage. rewrite Hnone. reflexivity.
Qed.

Lemma untimed_log_mined_witness :
  get_prompt_processing_time server_log (world_of_log server_log plain_log)
  = (Ok 0%Z, world_of_log server_log plain_log)
  /\ (findall usage_pattern (read plain_log) = [] ->
      get_token_usage server_log (world_of_log server_log plain_log)
      = (Ok usage_zero, world_of_log server_log plain_log)).
Proof.
  apply (untimed_log_mined (world_of_log server_log plain_log) server_log
           plain_log).
  - reflexivity.
  - vm_compute. repeat constructor.
Defined.

(** C10.  [get_prompt_processing_time] can return a negative number: on
    [backwards_log], where the line that closes the block is three seconds
    earlier than the line that opens it, it returns -3. *)
Theorem prompt_time_can_be_negative :
  exists content d,
    get_prompt_processing_time server_log (world_of_log server_log content)
    = (Ok d, world_of_log server_log content)
    /\ (d < 0)%Z.
Proof.
  exists backwards_log, (-3)%Z. split.
  - rewrite (get_prompt_processing_time_file _ _ backwards_log)
      by reflexivity.
    vm_compute. reflexivity.
  - lia.
Qed.

End Untimed.

(** ** A log that ends inside a block *)

Module OpenBlock.
Import Text Re Datetime LogMining Os Sys MetadataCollector LogEvents Samples
  CollectorFacts.

Lemma scan_line_event st line :
  scan_line st line
  = match stamp line with Some e => scan_event st e | None => st end.
Proof.
  unfold scan_line, stamp, scan_event.
  destruct (line_timestamp line) as [ts|]; [|reflexivity].
  simpl. reflexivity.
Qed.

Lemma scan_lines_events lines st :
  fold_left scan_line lines st = fold_left scan_event (log_events lines) st.
Proof.
  revert st. induction lines as [|l ls IH]; intros st; [reflexivity|].
  simpl. rewrite scan_line_event. unfold log_events. simpl.
  fold (log_events ls). destruct (stamp l) as [e|]; simpl; apply IH.
Qed.

Lemma log_events_app l1 l2 :
  log_events (l1 ++ l2) = log_events l1 ++ log_events l2.
Proof. unfold log_events. apply omap_app. Qed.

(** Where the scan stands after any list of events. *)
Lemma scan_state evs :
  let st := fold_left scan_event evs scan_init in
  in_block st = ends_open evs
  /\ last_timestamp st = fst <$> last evs
  /\ (in_block st = true -> is_Some (block_start_time st)).
Proof.
  induction evs as [|[ts m] evs IH] using rev_ind.
  - simpl. unfold ends_open. simpl. repeat split; intros; discriminate.
  - cbn zeta in *. rewrite fold_left_app. simpl.
    destruct IH as (Hin & Hlast & Hstart).
    set (st := fold_left scan_event evs scan_init) in *.
    unfold ends_open. rewrite last_snoc. simpl.
    unfold scan_event. simpl.
    destruct m, (in_block st) eqn:Hb;
      simpl; repeat split; auto; try discriminate; intros; eauto.
Qed.

(** Inside a block, marker lines move nothing but the last timestamp. *)
Lemma scan_event_marker_inside st ts :
  in_block st = true ->
  scan_event st (ts, true)
  = {| in_block := true; block_start_time := block_start_time st;
       last_timestamp := Some ts; total_duration := total_duration st |}.
Proof. intros H. unfold scan_event. simpl. rewrite H. reflexivity. Qed.

Lemma scan_markers blk st :
  Forall (fun e : log_event => e.2 = true) blk ->
  in_block st = true ->
  let st' := fold_left scan_event blk st in
  in_block st' = true
  /\ block_start_time st' = block_start_time st
  /\ total_duration st' = total_duration st
  /\ last_timestamp st'
     = match last blk with
       | Some e => Some e.1
       | None => last_timestamp st
       end.
Proof.
  intros Hall. revert st.
  induction Hall as [|[ts m] blk Hm _ IH]; intros st Hin; cbn zeta.
  - simpl. auto.
  - simpl in Hm. subst m.
    change (fold_left scan_event ((ts, true) :: blk) st)
      with (fold_left scan_event blk (scan_event st (ts, true))).
    rewrite (scan_event_marker_inside st ts Hin).
    destruct (IH {| in_block := true;
                    block_start_time := block_start_time st;
                    last_timestamp := Some ts;
                    total_duration := total_duration st |} eq_refl)
      as (H1 & H2 & H3 & H4).
    repeat split; auto. rewrite H4. clear.
    destruct blk as [|e blk]; [reflexivity|].
    change (last ((ts, true) :: e :: blk)) with (last (e :: blk)).
    destruct (last (e :: blk)) as [e'|] eqn:He; [reflexivity|].
    apply last_None in He. discriminate.
Qed.

(** Outside a block nothing is pending when the log ends. *)
Lemma scan_finish_closed st :
  in_block st = false -> scan_finish st = total_duration st.
Proof. intros H. unfold scan_finish. rewrite H. reflexivity. Qed.

(** The law of the open block, on lines. *)
Lemma open_block_time (pre blk : list text) (start fin : datetime)
    (rest : list log_event) :
  ends_open (log_events pre) = false ->
  log_events blk = (start, true) :: rest ->
  Forall (fun e : log_event => e.2 = true) rest ->
  last (log_events blk) = Some (fin, true) ->
  prompt_processing_time (pre ++ blk)
  = (prompt_processing_time pre + seconds_between fin start)%Z.
Proof.
  intros Hclosed Hblk Hall Hlast.
  unfold prompt_processing_time.
  rewrite !scan_lines_events, log_events_app, fold_left_app.
  destruct (scan_state (log_events pre)) as (Hin & _ & _).
  cbn zeta in Hin. rewrite Hclosed in Hin.
  rewrite (scan_finish_closed _ Hin).
  set (st := fold_left scan_event (log_events pre) scan_init) in *.
  rewrite Hblk in *. simpl. unfold scan_event at 2. simpl. rewrite Hin. simpl.
  set (st1 := {| in_block := true; block_start_time := Some start;
                 last_timestamp := Some start;
                 total_duration := total_duration st |}).
  destruct (scan_markers rest st1 Hall eq_refl) as (H1 & H2 & H3 & H4).
  cbn zeta in *. unfold scan_finish. rewrite H1, H2, H3, H4. simpl.
  destruct rest as [|e rest]; simpl in *.
  - injection Hlast as ->. reflexivity.
  - rewrite Hlast. reflexivity.
Qed.

(** C4.  Let the lines of a log be [pre ++ blk], where [pre] does not end
    inside a block and the timestamped lines of [blk] are all marker lines,
    the first at [start] and the last at [fin].  Then the log ends with the
    block open, [fin] is the timestamp of the last timestamped line of the
    whole file, and [get_prompt_processing_time] returns the duration mined
    from [pre] plus [fin - start].  When the block has a single timestamped
    line it adds nothing. *)
Theorem open_block_closed_at_last_timestamp (w : world) (p : path)
    (content : text) (pre blk : list text) (start fin : datetime)
    (rest : list log_event)
    (Hfile : node_at (fs w) p = Some (File content))
    (Hlines : readlines content = pre ++ blk)
    (Hclosed : ends_open (log_events pre) = false)
    (Hblk : log_events blk = (start, true) :: rest)
    (Hmarkers : Forall (fun e : log_event => e.2 = true) rest)
    (Hfin : last (log_events blk) = Some (fin, true)) :
  ends_open (log_events (readlines content)) = true
  /\ last (log_events (readlines content)) = Some (fin, true)
  /\ get_prompt_processing_time p w
     = (Ok (prompt_processing_time pre + seconds_between fin start)%Z, w)
  /\ (rest = [] ->
      get_prompt_processing_time p w = (Ok (prompt_processing_time pre), w)).
Proof.
  assert (Hlast : last (log_events (readlines content)) = Some (fin, true)).
  { rewrite Hlines, log_events_app, Hblk.
    rewrite Hblk in Hfin.
    change (log_events pre ++ (start, true) :: rest)
      with (log_events pre ++ [(start, true)] ++ rest).
    destruct rest as [|e rest] using rev_ind.
    - simpl in Hfin. rewrite app_nil_r, last_snoc. exact Hfin.
    - rewrite !app_assoc, last_snoc.
      change ((start, true) :: rest ++ [e])
        with (((start, true) :: rest) ++ [e]) in Hfin.
      rewrite last_snoc in Hfin. exact Hfin. }
  assert (Htime : get_prompt_processing_time p w
     = (Ok (prompt_processing_time pre + seconds_between fin start)%Z, w)).
  { rewrite (get_prompt_processing_time_file _ _ _ Hfile), Hlines.
    rewrite (open_block_time pre blk start fin rest); auto. }
  repeat split.
  - unfold ends_open. rewrite Hlast. reflexivity.
  - exact Hlast.
  - exact Htime.
  - intros ->. rewrite Htime. rewrite Hblk in Hfin. simpl in Hfin.
    injection Hfin as <-.
    replace (seconds_between start start) with 0%Z
      by (unfold seconds_between; lia).
    rewrite Z.add_0_r. reflexivity.
Qed.

Lemma open_block_closed_at_last_timestamp_witness :
  ends_open (log_events (readlines open_log)) = true
  /\ last (log_events (readlines open_log)) = Some (at_18_11 7, true)
  /\ get_prompt_processing_time server_log (world_of_log server_log open_log)
     = (Ok (prompt_processing_time open_pre
            + seconds_between (at_18_11 7) (at_18_11 0))%Z,
        world_of_log server_log open_log)
  /\ ([(at_18_11 7, true)] = [] ->
      get_prompt_processing_time server_log
        (world_of_log server_log open_log)
      = (Ok (prompt_processing_time open_pre),
         world_of_log server_log open_log)).
Proof.
  apply (open_block_closed_at_last_timestamp
           (world_of_log server_log open_log) server_log open_log
           open_pre open_blk (at_18_11 0) (at_18_11 7)
           [(at_18_11 7, true)]);
    try (vm_compute; reflexivity).
  repeat constructor.
Defined.

End OpenBlock.

(** ** Preparing the workspace *)

Module Workspace.
Import Text Os Sys AgentRunner FsShape Samples MonadFacts.
Local Open Scope py_scope.

(** [mkdir_from] succeeds when no regular file is in the way; it makes
    directories of all the paths on the way and touches nothing else. *)
Lemma mkdir_from_ok rest : forall pre (f : gmap path node),
  (forall k c, (0 < k <= length rest)%nat ->
               f !! (pre ++ take k rest) <> Some (File c)) ->
  exists f',
    mkdir_from pre rest f = Ok f'
    /\ (forall k, (0 < k <= length rest)%nat ->
                  f' !! (pre ++ take k rest) = Some Dir)
    /\ (forall q, (forall k, (0 < k <= length rest)%nat ->
                             q <> pre ++ take k rest) ->
                  f' !! q = f !! q).
Proof.
  induction rest as [|c rest IH]; intros pre f Hfree.
  - exists f. split; [reflexivity|].
    split; [intros k Hk; simpl in Hk; lia | auto].
  - assert (Hstep : forall k, pre ++ take (S k) (c :: rest)
                              = (pre ++ [c]) ++ take k rest).
    { intros k. simpl. rewrite <- app_assoc. reflexivity. }
    assert (Hne : forall k, (0 < k <= length rest)%nat ->
                            (pre ++ [c]) ++ take k rest <> pre ++ [c]).
    { intros k Hk Heq. apply (f_equal length) in Heq.
      rewrite !length_app, length_take in Heq. simpl in Heq. lia. }
    assert (H1 : forall c0, f !! (pre ++ [c]) <> Some (File c0)).
    { intros c0. specialize (Hfree 1%nat c0). simpl in Hfree.
      rewrite take_0 in Hfree. apply Hfree. lia. }
    simpl. destruct (f !! (pre ++ [c])) as [[c0|]|] eqn:Hq.
    + exfalso. exact (H1 c0 eq_refl).
    + destruct (IH (pre ++ [c]) f) as (f' & Hrun & Hon & Hoff).
      { intros k c0 Hk. rewrite <- Hstep. apply Hfree. simpl. lia. }
      exists f'. split; [exact Hrun|]. split.
      * intros k Hk. destruct k as [|k]; [lia|]. rewrite Hstep.
        destruct k as [|k].
        -- rewrite take_0, app_nil_r. rewrite Hoff; [exact Hq|].
           intros k Hk' Heq. symmetry in Heq. exact (Hne k Hk' Heq).
        -- apply Hon. simpl in Hk. lia.
      * intros q Hq'. apply Hoff. intros k Hk. rewrite <- Hstep.
        apply Hq'. simpl. lia.
    + destruct (IH (pre ++ [c]) (<[pre ++ [c] := Dir]> f))
        as (f' & Hrun & Hon & Hoff).
      { intros k c0 Hk. rewrite lookup_insert_ne.
        - rewrite <- Hstep. apply Hfree. simpl. lia.
        - intros Heq. symmetry in Heq. exact (Hne k Hk Heq). }
      exists f'. split; [exact Hrun|]. split.
      * intros k Hk. destruct k as [|k]; [lia|]. rewrite Hstep.
        destruct k as [|k].
        -- rewrite take_0, app_nil_r. rewrite Hoff.
           ++ apply lookup_insert_eq.
           ++ intros k Hk' Heq. symmetry in Heq. exact (Hne k Hk' Heq).
        -- apply Hon. simpl in Hk. lia.
      * intros q Hq'. rewrite Hoff.
        -- apply lookup_insert_ne. intros Heq.
           apply (Hq' 1%nat); [simpl; lia|].
           simpl. rewrite take_0. symmetry. exact Heq.
        -- intros k Hk. rewrite <- Hstep. apply Hq'. simpl. lia.
Qed.

(** The checks that run are sound. *)
Lemma wf_fsb_sound (f : gmap path node) : wf_fsb f = true -> wf_fs f.
Proof.
  unfold wf_fsb. rewrite forallb_forall. intros H q n Hq k Hk.
  specialize (H (q, n)). simpl in H.
  assert (Hin : In (q, n) (map_to_list f)).
  { apply list_elem_of_In, elem_of_map_to_list. exact Hq. }
  specialize (H Hin). rewrite forallb_forall in H.
  specialize (H k). unfold is_dir in H.
  destruct (f !! take k q) as [[c|]|]; try reflexivity;
    (assert (false = true) as Habs by (apply H, in_seq; lia));
    discriminate Habs.
Qed.

Lemma no_file_onb_sound (f : gmap path node) (p : path) :
  no_file_onb f p = true -> no_file_on f p.
Proof.
  unfold no_file_onb. rewrite forallb_forall. intros H k c Hk Hfile.
  specialize (H k). rewrite Hfile in H. simpl in H.
  assert (false = true) as Habs by (apply H, in_seq; lia).
  discriminate Habs.
Qed.

(** What [rmtree] leaves. *)
Lemma removed_under (p q : path) (f : gmap path node) :
  p `prefix_of` q ->
  filter (fun kv : path * node => ~ p `prefix_of` kv.1) f !! q = None.
Proof.
  intros Hpq. apply map_lookup_filter_None. right.
  intros n _ Hn. exact (Hn Hpq).
Qed.

Lemma removed_other (p q : path) (f : gmap path node) :
  ~ p `prefix_of` q ->
  filter (fun kv : path * node => ~ p `prefix_of` kv.1) f !! q = f !! q.
Proof.
  intros Hpq. destruct (f !! q) as [n|] eqn:Hq.
  - apply map_lookup_filter_Some. split; [exact Hq|exact Hpq].
  - apply map_lookup_filter_None. left. exact Hq.
Qed.

Lemma node_at_ne (f : gmap path node) (p : path) :
  p <> [] -> node_at f p = f !! p.
Proof. destruct p; [congruence|reflexivity]. Qed.

Lemma take_shorter_not_under (d : path) k :
  (k < length d)%nat -> ~ d `prefix_of` take k d.
Proof.
  intros Hk Hp. apply prefix_length in Hp. rewrite length_take in Hp. lia.
Qed.

Lemma under_not_on_way (d q : path) k :
  d `prefix_of` q -> q <> d -> q <> take k d.
Proof.
  intros Hp Hne Heq. apply Hne. symmetry. apply prefix_length_eq; [exact Hp|].
  rewrite Heq, length_take. lia.
Qed.

(** In a well-formed file system nothing is under a path that is not
    there. *)
Lemma wf_nothing_under (f : gmap path node) (d q : path) :
  wf_fs f -> d <> [] -> f !! d = None -> d `prefix_of` q -> f !! q = None.
Proof.
  intros Hwf Hd Hnone [x ->]. destruct x as [|c x].
  - rewrite app_nil_r. exact Hnone.
  - destruct (f !! (d ++ c :: x)) as [n|] eqn:Hq; [|reflexivity].
    specialize (Hwf _ _ Hq (length d)).
    rewrite take_app_length in Hwf. rewrite Hwf in Hnone; [discriminate|].
    rewrite length_app. simpl. destruct d; [congruence|simpl; lia].
Qed.

(** The first half of [setup_workspace]: what was at the path is gone. *)
Lemma cleanup_run (d : path) (w : world) :
  d <> [] ->
  no_file_on (fs w) d ->
  (fs w !! d = None -> forall q, d `prefix_of` q -> fs w !! q = None) ->
  exists w1,
    (if match fs w !! d with Some _ => true | None => false end
     then (print (txt "[*] Cleaning up existing directory: "
                  ++ str_of_path d) ;; rmtree d)%py
     else ret tt) w = (Ok tt, w1)
    /\ (forall k c, (0 < k <= length d)%nat ->
                    fs w1 !! ([] ++ take k d) <> Some (File c))
    /\ (forall q, d `prefix_of` q -> q <> d -> fs w1 !! q = None)
    /\ (forall q, apart d q -> fs w1 !! q = fs w !! q).
Proof.
  intros Hd Hfree Hunder.
  assert (Hall : take (length d) d = d) by (apply take_ge; lia).
  destruct (fs w !! d) as [[c|]|] eqn:Hnode.
  - exfalso. apply (Hfree (length d) c).
    + destruct d; [congruence|simpl; lia].
    + rewrite Hall. exact Hnode.
  - eexists. split.
    + erewrite bind_ok by apply print_run. unfold rmtree.
      rewrite (node_at_ne _ _ Hd). simpl. rewrite Hnode. reflexivity.
    + simpl. repeat split.
      * intros k c Hk.
        destruct (decide (k = length d)) as [->|Hne].
        -- rewrite Hall, removed_under; [discriminate|reflexivity].
        -- rewrite removed_other by (apply take_shorter_not_under; lia).
           apply Hfree. lia.
      * intros q Hq _. apply removed_under. exact Hq.
      * intros q [Hq _]. apply removed_other. exact Hq.
  - exists w. split; [reflexivity|]. repeat split.
    + intros k c Hk. simpl. apply Hfree. exact Hk.
    + intros q Hq _. apply Hunder; [reflexivity|exact Hq].
Qed.

(** One call of [setup_workspace]. *)
Lemma setup_workspace_once (self : runner) (w : world) :
  work_dir self <> [] ->
  no_file_on (fs w) (work_dir self) ->
  (fs w !! work_dir self = None ->
   forall q, work_dir self `prefix_of` q -> fs w !! q = None) ->
  exists w',
    setup_workspace self w = (Ok tt, w')
    /\ empty_dir (fs w') (work_dir self)
    /\ dirs_to (fs w') (work_dir self)
    /\ (forall q, apart (work_dir self) q -> fs w' !! q = fs w !! q).
Proof.
  set (d := work_dir self). intros Hd Hfree Hunder.
  assert (Hall : take (length d) d = d) by (apply take_ge; lia).
  assert (Hlen : (0 < length d)%nat) by (destruct d; [congruence|simpl; lia]).
  destruct (cleanup_run d w Hd Hfree Hunder)
    as (w1 & Hclean & Hbfree & Hbunder & Hbapart).
  destruct (mkdir_from_ok d [] (fs w1) Hbfree) as (f' & Hrun & Hon & Hoff).
  unfold setup_workspace. fold d.
  erewrite bind_ok
    by (unfold path_exists, get; rewrite (node_at_ne _ _ Hd); reflexivity).
  erewrite bind_ok by exact Hclean.
  erewrite bind_ok by (unfold mkdir_parents; rewrite Hrun; reflexivity).
  rewrite print_run.
  eexists. split; [reflexivity|]. simpl.
  split; [|split].
  - split.
    + specialize (Hon (length d)). simpl in Hon. rewrite Hall in Hon.
      apply Hon. lia.
    + intros q Hq Hne. rewrite Hoff.
      * apply Hbunder; assumption.
      * intros k _. simpl. apply under_not_on_way; assumption.
  - intros k Hk. exact (Hon k Hk).
  - intros q Hq. rewrite Hoff.
    + apply Hbapart. exact Hq.
    + intros k _ ->. simpl in Hq. destruct Hq as [_ Hq]. apply Hq.
      apply prefix_take.
Qed.

(** C7.  In a well-formed file system where no regular file sits at the
    work directory or on the way to it, [setup_workspace] returns normally
    and leaves the work directory an empty directory, with every directory
    that leads to it made and nothing else touched, whatever tree was there
    before; called again at once, it returns normally again, although the
    path now exists, and the directory is empty again. *)
Theorem setup_workspace_idempotent (self : runner) (w : world)
    (Hpath : work_dir self <> [])
    (Hwf : wf_fs (fs w))
    (Hfree : no_file_on (fs w) (work_dir self)) :
  exists w1 w2,
    setup_workspace self w = (Ok tt, w1)
    /\ empty_dir (fs w1) (work_dir self)
    /\ dirs_to (fs w1) (work_dir self)
    /\ (forall q, apart (work_dir self) q -> fs w1 !! q = fs w !! q)
    /\ setup_workspace self w1 = (Ok tt, w2)
    /\ empty_dir (fs w2) (work_dir self)
    /\ dirs_to (fs w2) (work_dir self)
    /\ (forall q, apart (work_dir self) q -> fs w2 !! q = fs w1 !! q).
Proof.
  destruct (setup_workspace_once self w Hpath Hfree)
    as (w1 & Hrun1 & Hempty1 & Hdirs1 & Hapart1).
  { intros Hnone q Hq. eapply wf_nothing_under; eauto. }
  destruct (setup_workspace_once self w1 Hpath)
    as (w2 & Hrun2 & Hempty2 & Hdirs2 & Hapart2).
  { intros k c Hk. rewrite (Hdirs1 k Hk). discriminate. }
  { intros Hnone. destruct Hempty1 as [Hdir _]. congruence. }
  exists w1, w2. repeat split; try assumption;
    try (apply Hempty1); try (apply Hempty2).
Qed.

Lemma setup_workspace_idempotent_witness :
  exists w1 w2,
    setup_workspace vibe_runner used_world = (Ok tt, w1)
    /\ empty_dir (fs w1) (work_dir vibe_runner)
    /\ dirs_to (fs w1) (work_dir vibe_runner)
    /\ (forall q, apart (work_dir vibe_runner) q ->
                  fs w1 !! q = fs used_world !! q)
    /\ setup_workspace vibe_runner w1 = (Ok tt, w2)
    /\ empty_dir (fs w2) (work_dir vibe_runner)
    /\ dirs_to (fs w2) (work_dir vibe_runner)
    /\ (forall q, apart (work_dir vibe_runner) q ->
                  fs w2 !! q = fs w1 !! q).
Proof.
  apply (setup_workspace_idempotent vibe_runner used_world).
  - vm_compute. discriminate.
  - apply wf_fsb_sound. vm_compute. reflexivity.
  - apply no_file_onb_sound. vm_compute. reflexivity.
Defined.

(** ** The work directory as a function of the model *)

(** A character that [__init__] drops from the model name leaves no trace
    in the safe name. *)
Lemma safe_model_name_drops (m1 m2 : text) (c : ascii) :
  keep_char c = false ->
  make_safe_model_name (m1 ++ c :: m2) = make_safe_model_name (m1 ++ m2).
Proof.
  intros Hc. unfold make_safe_model_name.
  rewrite !List.filter_app. simpl. rewrite Hc. reflexivity.
Qed.

Lemma work_dir_of_safe_name c agent m1 m2 prompt headless :
  make_safe_model_name m1 = make_safe_model_name m2 ->
  work_dir (init c agent m1 prompt headless)
  = work_dir (init c agent m2 prompt headless).
Proof. intros H. unfold init. simpl. rewrite H. reflexivity. Qed.

(** C9.  The work directory is not an injective function of the model:
    ["foo.bar"] and ["foobar"] are different models with the same work
    directory, whatever the agent and the prompt.  So when the run of the
    first has left an artifact there, [setup_workspace] of a runner for the
    second returns normally and the artifact is gone. *)
Theorem work_dir_not_injective (c : runner_class) (agent : text)
    (prompt : path) (headless : bool) (w : world)
    (artifact content : text)
    (Hwf : wf_fs (fs w))
    (Hfree : no_file_on (fs w)
               (work_dir (init c agent (txt "foobar") prompt headless)))
    (Hartifact :
       fs w !! (work_dir (init c agent (txt "foo.bar") prompt headless)
                ++ [artifact])
       = Some (File content)) :
  txt "foo.bar" <> txt "foobar"
  /\ work_dir (init c agent (txt "foo.bar") prompt headless)
     = work_dir (init c agent (txt "foobar") prompt headless)
  /\ exists w',
       setup_workspace (init c agent (txt "foobar") prompt headless) w
       = (Ok tt, w')
       /\ fs w' !! (work_dir (init c agent (txt "foo.bar") prompt headless)
                    ++ [artifact])
          = None.
Proof.
  assert (Hsame : work_dir (init c agent (txt "foo.bar") prompt headless)
                  = work_dir (init c agent (txt "foobar") prompt headless)).
  { apply work_dir_of_safe_name.
    exact (safe_model_name_drops (txt "foo") (txt "bar") "." eq_refl). }
  split; [discriminate|]. split; [exact Hsame|].
  rewrite Hsame in *.
  set (self := init c agent (txt "foobar") prompt headless) in *.
  assert (Hpath : work_dir self <> []) by (unfold self, init; discriminate).
  destruct (setup_workspace_once self w Hpath Hfree)
    as (w' & Hrun & [_ Hempty] & _).
  { intros Hnone q Hq. eapply wf_nothing_under; eauto. }
  exists w'. split; [exact Hrun|].
  apply Hempty.
  - exists [artifact]. reflexivity.
  - intros Heq. apply (f_equal length) in Heq.
    rewrite length_app in Heq. simpl in Heq. lia.
Qed.

Lemma work_dir_not_injective_witness :
  txt "foo.bar" <> txt "foobar"
  /\ work_dir earlier_runner = work_dir vibe_runner
  /\ exists w',
       setup_workspace vibe_runner used_world = (Ok tt, w')
       /\ fs w' !! (work_dir earlier_runner ++ [txt "fibonacci.py"]) = None.
Proof.
  apply (work_dir_not_injective VibeRunner (txt "vibe")
           [txt "prompts"; txt "fib_prompt.md"] true used_world
           (txt "fibonacci.py") (txt "print(1)")).
  - apply wf_fsb_sound. vm_compute. reflexivity.
  - apply no_file_onb_sound. vm_compute. reflexivity.
  - vm_compute. reflexivity.
Defined.

End Workspace.

(** ** Stopping the logger *)

Module StopLogger.
Import Text Os Sys AgentRunner Traces Samples MonadFacts.
Local Open Scope py_scope.

Lemma with_server_log_file_same (w : world) f :
  server_log_file w = Some f -> with_server_log_file (Some f) w = w.
Proof. destruct w. simpl. intros ->. reflexivity. Qed.

(** All there is to say about one call of [stop_server_logger]. *)
Lemma stop_server_logger_spec (E : env) (w : world) :
  exists w1 tr,
    stop_server_logger E w = (Ok tt, w1)
    /\ log_process w1 = None
    /\ trace w1 = trace w ++ tr
    /\ forallb by_stop tr = true
    /\ (forall pid, log_process w = Some pid ->
                    In (Terminate pid) tr /\ pid ∉ running w1)
    /\ stop_server_logger E w1 = (Ok tt, w1)
    /\ (log_process w = None -> existsb is_termination tr = false)
    /\ (log_process w = None -> server_log_file w = None -> w1 = w).
Proof.
  destruct w as [f r n t lp slf].
  unfold stop_server_logger.
  destruct lp as [pid|].
  - destruct slf as [[fn [|]]|], (logger_exits_in_time E) eqn:Hexit;
      unfold bind, get, try_except, wait_logger, kill, reap, close, emit,
        print, modify, ret, raise; simpl; rewrite ?Hexit; simpl;
      eexists; eexists;
      (split; [reflexivity|]); simpl;
      (split; [reflexivity|]);
      (split; [trace_eq|]);
      (split; [reflexivity|]);
      (split; [intros pid' [= <-]; split;
               [simpl; tauto | apply not_elem_of_difference; right;
                               apply elem_of_singleton; reflexivity]|]);
      (split; [reflexivity|]);
      split; intros Hnone; discriminate Hnone.
  - destruct slf as [[fn [|]]|];
      unfold bind, get, close, emit, modify, ret; simpl;
      eexists; eexists;
      (split; [reflexivity|]); simpl;
      (split; [reflexivity|]);
      (split; [trace_eq|]);
      (split; [reflexivity|]);
      (split; [intros pid' Hpid; discriminate Hpid|]);
      (split; [reflexivity|]);
      (split; [intros _; reflexivity|]);
      intros _ Hfile; try discriminate Hfile; reflexivity.
Qed.

(** C8.  [stop_server_logger] returns normally from every state of the
    runner, whatever the logger process does.  After it no logger process is
    recorded; a logger that was recorded has been asked to terminate and is
    no longer alive.  A second call right after the first returns normally
    and changes nothing at all, so it terminates and kills nothing.  When
    [start_server_logger] was never called, or failed before the process was
    there ([log_process] is [None]), the call terminates and kills nothing
    either, and when not even the log file was opened it changes nothing. *)
Theorem stop_server_logger_safe (E : env) (w : world) :
  exists w1 tr,
    stop_server_logger E w = (Ok tt, w1)
    /\ log_process w1 = None
    /\ trace w1 = trace w ++ tr
    /\ (forall pid, log_process w = Some pid ->
                    In (Terminate pid) tr /\ pid ∉ running w1)
    /\ stop_server_logger E w1 = (Ok tt, w1)
    /\ (log_process w = None -> existsb is_termination tr = false)
    /\ (log_process w = None -> server_log_file w = None -> w1 = w).
Proof.
  destruct (stop_server_logger_spec E w)
    as (w1 & tr & H1 & H2 & H3 & _ & H4 & H5 & H6 & H7).
  exists w1, tr. auto 10.
Qed.

End StopLogger.

(** ** Running the agent *)

Module RunProcess.
Import Text Os Sys AgentRunner FsShape Traces Samples MonadFacts Workspace.
Local Open Scope py_scope.

(** Streaming the lines of the agent appends them to the transcript. *)
Lemma stream_lines (f : file_obj) (out : list text) : forall (w : world) c,
  fs w !! fname f = Some (File c) ->
  exists w',
    for_each out (fun line => emit (Stdout line) ;; write f line) w
    = (Ok tt, w')
    /\ fs w' !! fname f = Some (File (c ++ concat out)).
Proof.
  induction out as [|line out IH]; intros w c Hc.
  - exists w. split; [reflexivity|]. simpl. rewrite app_nil_r. exact Hc.
  - destruct (IH (with_fs (alter (append_node line) (fname f) (fs w))
                    (with_trace (trace w ++ [Stdout line]) w)) (c ++ line))
      as (w' & Hrun & Hfs).
    { simpl. rewrite lookup_alter_eq, Hc. reflexivity. }
    exists w'. split.
    + simpl. erewrite bind_ok; [exact Hrun|]. reflexivity.
    + rewrite Hfs. simpl. rewrite app_assoc. reflexivity.
Qed.

(** The files the agent leaves do not make the transcript go away; they
    leave its content alone unless one of them has its name. *)
Lemma leave_files_run (self : runner) (files : list (text * text)) :
  forall (w : world) c,
  fs w !! chat_log_path self = Some (File c) ->
  exists w' c',
    leave_files self files w = (Ok tt, w')
    /\ fs w' !! chat_log_path self = Some (File c')
    /\ (Forall (fun nf : text * text => nf.1 <> CHAT_SESSION_FILENAME) files
        -> c' = c).
Proof.
  induction files as [|[name content] files IH]; intros w c Hc.
  - exists w, c. repeat split; auto.
  - destruct (decide (name = CHAT_SESSION_FILENAME)) as [->|Hne].
    + destruct (IH (with_fs (<[work_dir self ++ [CHAT_SESSION_FILENAME]
                               := File content]> (fs w)) w) content)
        as (w' & c' & Hrun & Hfs & _).
      { simpl. apply lookup_insert_eq. }
      exists w', c'. split; [|split].
      * unfold leave_files in *. simpl. erewrite bind_ok; [exact Hrun|].
        reflexivity.
      * exact Hfs.
      * intros Hall. inversion Hall as [|? ? Hhead _]. simpl in Hhead.
        congruence.
    + destruct (IH (with_fs (<[work_dir self ++ [name] := File content]>
                               (fs w)) w) c)
        as (w' & c' & Hrun & Hfs & Hsame).
      { simpl. rewrite lookup_insert_ne; [exact Hc|].
        unfold chat_log_path. intros Heq. apply app_inv_head in Heq.
        congruence. }
      exists w', c'. split; [|split].
      * unfold leave_files in *. simpl. erewrite bind_ok; [exact Hrun|].
        reflexivity.
      * exact Hfs.
      * intros Hall. apply Hsame. inversion Hall. assumption.
Qed.

Lemma open_w_ok (p : path) (w : world) :
  parent_error (fs w) p = None ->
  node_at (fs w) p <> Some Dir ->
  open_w p w = (Ok {| fname := p; closed := false |},
                with_fs (<[p := File []]> (fs w)) w).
Proof.
  intros Hparent Hnode. unfold open_w. rewrite Hparent.
  destruct (node_at (fs w) p) as [[c|]|]; try reflexivity. congruence.
Qed.

Lemma parent_of_child (f : gmap path node) (d : path) (name : text) :
  node_at f d = Some Dir -> parent_error f (d ++ [name]) = None.
Proof.
  intros Hd. unfold parent_error. rewrite removelast_last, Hd. reflexivity.
Qed.

Lemma outcome_line_not_empty returncode body :
  body ++ outcome_line returncode <> [].
Proof.
  unfold outcome_line, success_line, error_line.
  destruct (returncode =? 0)%Z; intros H; apply app_eq_nil in H;
    destruct H as [_ H]; discriminate H.
Qed.

(** What [_run_process] does in a work directory that is there. *)
Lemma run_process_run (E : env) (self : runner) (w : world)
    (cmd : list text) :
  node_at (fs w) (work_dir self) = Some Dir ->
  fs w !! chat_log_path self <> Some Dir ->
  match agent E cmd with
  | Runs out returncode files =>
      exists w' body,
        _run_process E self cmd w = (Ok tt, w')
        /\ fs w' !! chat_log_path self
           = Some (File (body ++ outcome_line returncode))
        /\ (Forall (fun nf : text * text => nf.1 <> CHAT_SESSION_FILENAME)
                   files -> body = concat out)
  | CannotLaunch e =>
      exists w',
        _run_process E self cmd w = (Raise e, w')
        /\ fs w' !! chat_log_path self = Some (File [])
  end.
Proof.
  intros Hdir Hnodir.
  assert (Hchat : chat_log_path self <> []).
  { unfold chat_log_path. intros H. apply app_eq_nil in H.
    destruct H as [_ H]. discriminate H. }
  unfold _run_process.
  destruct (agent E cmd) as [e|out returncode files] eqn:Hagent.
  - eexists. split.
    + erewrite bind_ok by apply print_run.
      erewrite bind_ok by apply print_run.
      unfold with_open_w. erewrite bind_ok.
      2:{ apply open_w_ok.
          - apply parent_of_child. exact Hdir.
          - rewrite (node_at_ne _ _ Hchat). exact Hnodir. }
      reflexivity.
    + simpl. apply lookup_insert_eq.
  - set (w2 := with_fs (<[chat_log_path self := File []]> (fs w))
                 (with_trace
                    ((trace w ++ [Print (txt "[*] Executing: "
                                         ++ join (txt " ") cmd)])
                     ++ [Print (txt "[*] Output logging to: "
                                ++ str_of_path (chat_log_path self))]) w)).
    set (log_file := {| fname := chat_log_path self; closed := false |}).
    set (w3 := with_trace (trace w2 ++ [Popen cmd (Some (next_pid w2))])
                 (with_running ({[next_pid w2]} ∪ running w2)
                    (S (next_pid w2)) w2)).
    destruct (stream_lines log_file out w3 [])
      as (w4 & Hstream & Hfs4); [apply lookup_insert_eq|].
    destruct (leave_files_run self files w4 (concat out) Hfs4)
      as (w5 & body & Hleave & Hfs5 & Hbody).
    unfold outcome_line.
    destruct (returncode =? 0)%Z eqn:Hrc;
      (eexists; exists body; split; [|split; [|exact Hbody]]).
    1,3: erewrite bind_ok by apply print_run;
      erewrite bind_ok by apply print_run;
      unfold with_open_w;
      (erewrite bind_ok;
       [|apply open_w_ok;
         [apply parent_of_child; exact Hdir
         |rewrite (node_at_ne _ _ Hchat); exact Hnodir]]);
      fold w2; fold log_file;
      (eapply try_finally_ok; [|reflexivity]);
      (erewrite bind_ok by reflexivity); fold w3;
      (erewrite bind_ok by exact Hstream);
      (erewrite bind_ok by exact Hleave);
      (erewrite bind_ok by reflexivity);
      (erewrite bind_ok by reflexivity);
      simpl; (erewrite bind_ok by reflexivity); reflexivity.
    all: simpl; rewrite lookup_alter_eq; simpl; rewrite Hfs5; reflexivity.
Qed.

(** C1, as the code has it.  In a work directory that is there,
    [_run_process] on an agent that can be launched returns normally, and
    the transcript ends with the success line when the exit code is 0 and
    with the error line, which carries the code, when it is not; so the
    transcript is not empty, and before that line it holds the output of the
    agent (unless the agent itself wrote a file of that name).  On an agent
    that cannot be launched, [_run_process] does not return normally: the
    exception of [Popen] goes through it, and the transcript is left
    empty. *)
Theorem run_process_outcomes (E : env) (self : runner) (w : world)
    (cmd : list text)
    (Hdir : node_at (fs w) (work_dir self) = Some Dir)
    (Hnodir : fs w !! chat_log_path self <> Some Dir) :
  match agent E cmd with
  | Runs out returncode files =>
      exists w' body line,
        _run_process E self cmd w = (Ok tt, w')
        /\ fs w' !! chat_log_path self = Some (File (body ++ line))
        /\ (returncode = 0%Z -> line = success_line)
        /\ (returncode <> 0%Z -> line = error_line returncode)
        /\ body ++ line <> []
        /\ (Forall (fun nf : text * text => nf.1 <> CHAT_SESSION_FILENAME)
                   files -> body = concat out)
  | CannotLaunch e =>
      exists w',
        _run_process E self cmd w = (Raise e, w')
        /\ fs w' !! chat_log_path self = Some (File [])
  end.
Proof.
  pose proof (run_process_run E self w cmd Hdir Hnodir) as H.
  destruct (agent E cmd) as [e|out returncode files]; [exact H|].
  destruct H as (w' & body & Hrun & Hfs & Hbody).
  exists w', body, (outcome_line returncode).
  split; [exact Hrun|]. split; [exact Hfs|].
  split; [intros ->; reflexivity|].
  split.
  { intros Hne. unfold outcome_line.
    destruct (returncode =? 0)%Z eqn:Hrc; [|reflexivity].
    apply Z.eqb_eq in Hrc. contradiction. }
  split; [apply outcome_line_not_empty|exact Hbody].
Qed.

Lemma run_process_outcomes_witness :
  exists w' body line,
    _run_process vibe_machine vibe_runner vibe_cmd used_world = (Ok tt, w')
    /\ fs w' !! chat_log_path vibe_runner = Some (File (body ++ line))
    /\ (1%Z = 0%Z -> line = success_line)
    /\ (1%Z <> 0%Z -> line = error_line 1)
    /\ body ++ line <> []
    /\ (Forall (fun nf : text * text => nf.1 <> CHAT_SESSION_FILENAME)
               [(txt "fibonacci.py", txt "print(1)")] ->
        body = concat [txt "thinking" ++ [lf]; txt "gave up" ++ [lf]]).
Proof.
  apply (run_process_outcomes vibe_machine vibe_runner used_world vibe_cmd).
  - vm_compute. reflexivity.
  - vm_compute. discriminate.
Defined.

(** C1 as stated fails: where [gemini] is not installed, [_run_process] on
    its command line raises [FileNotFoundError] and leaves the transcript
    empty; it does not return normally with a transcript that is not
    empty. *)
Lemma missing_agent_raises :
  (_run_process vibe_machine vibe_runner gemini_cmd used_world).1
  = Raise FileNotFoundError
  /\ fs (_run_process vibe_machine vibe_runner gemini_cmd used_world).2
       !! chat_log_path vibe_runner = Some (File [])
  /\ ~ (exists w' content,
          _run_process vibe_machine vibe_runner gemini_cmd used_world
          = (Ok tt, w')
          /\ fs w' !! chat_log_path vibe_runner = Some (File content)
          /\ content <> []).
Proof.
  destruct (run_process_run vibe_machine vibe_runner used_world gemini_cmd)
    as (w' & Hrun & Hfs).
  - vm_compute. reflexivity.
  - vm_compute. discriminate.
  - rewrite Hrun. simpl. split; [reflexivity|]. split; [exact Hfs|].
    intros (w'' & content & Hok & _). discriminate Hok.
Qed.

End RunProcess.

(** ** What each part of a run adds to the trace *)

Module TraceLogic.
Import Text LogMining Os Sys MetadataCollector AgentRunner FsShape Traces
  MonadFacts.
Local Open Scope py_scope.

Section Quiet.
Context {P : event -> bool}.

Lemma quiet_ret {A} (a : A) : quiet P (ret a).
Proof. intros w. split; [reflexivity|]. exists []. by rewrite app_nil_r. Qed.

Lemma quiet_raise {A} (e : exn) : quiet P (@raise A e).
Proof. intros w. split; [reflexivity|]. exists []. by rewrite app_nil_r. Qed.

Lemma quiet_get {A} (f : world -> A) : quiet P (get f).
Proof. intros w. split; [reflexivity|]. exists []. by rewrite app_nil_r. Qed.

Lemma quiet_emit (e : event) : P e = true -> quiet P (emit e).
Proof.
  intros He w. split; [reflexivity|]. exists [e]. simpl. by rewrite He.
Qed.

(** A computation that leaves the trace and the logger alone. *)
Lemma quiet_silent {A} (m : M A) :
  (forall w, trace (m w).2 = trace w /\ log_process (m w).2 = log_process w)
  -> quiet P m.
Proof.
  intros H w. destruct (H w) as [Ht Hl]. split; [exact Hl|].
  exists []. by rewrite app_nil_r.
Qed.

Lemma quiet_bind {A B} (m : M A) (k : A -> M B) :
  quiet P m -> (forall a, quiet P (k a)) -> quiet P (bind m k).
Proof.
  intros Hm Hk w. unfold bind.
  destruct (Hm w) as (Hl & tr & Ht & Hall).
  destruct (m w) as [[a|e] w']; simpl in *.
  - destruct (Hk a w') as (Hl' & tr' & Ht' & Hall'). split; [congruence|].
    exists (tr ++ tr'). rewrite Ht', Ht, app_assoc, forallb_app, Hall, Hall'.
    by split.
  - split; [exact Hl|]. by exists tr.
Qed.

Lemma quiet_try_except {A} (m : M A) (h : exn -> M A) :
  quiet P m -> (forall e, quiet P (h e)) -> quiet P (try_except m h).
Proof.
  intros Hm Hh w. unfold try_except.
  destruct (Hm w) as (Hl & tr & Ht & Hall).
  destruct (m w) as [[a|e] w']; simpl in *.
  - split; [exact Hl|]. by exists tr.
  - destruct (Hh e w') as (Hl' & tr' & Ht' & Hall'). split; [congruence|].
    exists (tr ++ tr'). rewrite Ht', Ht, app_assoc, forallb_app, Hall, Hall'.
    by split.
Qed.

Lemma quiet_try_finally {A} (m : M A) (fin : M unit) :
  quiet P m -> quiet P fin -> quiet P (try_finally m fin).
Proof.
  intros Hm Hf w. unfold try_finally.
  destruct (Hm w) as (Hl & tr & Ht & Hall).
  destruct (m w) as [r w']; simpl in *.
  destruct (Hf w') as (Hl' & tr' & Ht' & Hall').
  destruct (fin w') as [[[]|e] w'']; simpl in *;
    (split; [congruence|]); exists (tr ++ tr');
    rewrite Ht', Ht, app_assoc, forallb_app, Hall, Hall'; by split.
Qed.

Lemma quiet_for_each {A} (l : list A) (body : A -> M unit) :
  (forall x, quiet P (body x)) -> quiet P (for_each l body).
Proof.
  intros Hbody. induction l as [|x l IH]; simpl.
  - apply quiet_ret.
  - apply quiet_bind; [apply Hbody|intros _; exact IH].
Qed.

End Quiet.

Lemma quiet_weaken {A} (P Q : event -> bool) (m : M A) :
  (forall e, P e = true -> Q e = true) -> quiet P m -> quiet Q m.
Proof.
  intros HPQ Hm w. destruct (Hm w) as (Hl & tr & Ht & Hall).
  split; [exact Hl|]. exists tr. split; [exact Ht|].
  rewrite forallb_forall in *. auto.
Qed.

(** *** The primitives *)

Section Primitives.
Context {P : event -> bool}.

Ltac silent :=
  apply quiet_silent; intros w; cbv beta delta
    [rmtree mkdir_parents open_w open_a write read_file reap modify];
  repeat case_match; simpl; auto.

Lemma quiet_path_exists p : quiet P (path_exists p).
Proof. apply quiet_get. Qed.

Lemma quiet_rmtree p : quiet P (rmtree p).
Proof. silent. Qed.

Lemma quiet_mkdir_parents p : quiet P (mkdir_parents p).
Proof. silent. Qed.

Lemma quiet_open_w p : quiet P (open_w p).
Proof. silent. Qed.

Lemma quiet_open_a p : quiet P (open_a p).
Proof. silent. Qed.

Lemma quiet_write f s : quiet P (write f s).
Proof. silent. Qed.

Lemma quiet_read_file p : quiet P (read_file p).
Proof. silent. Qed.

Lemma quiet_reap pid : quiet P (reap pid).
Proof. silent. Qed.

Lemma quiet_modify_fs (f : world -> gmap path node) :
  quiet P (modify (fun w => with_fs (f w) w)).
Proof. apply quiet_silent. intros w. simpl. auto. Qed.

Lemma quiet_close f : (forall p, P (Close p) = true) -> quiet P (close f).
Proof.
  intros HP. unfold close. destruct (closed f).
  - apply quiet_ret.
  - apply quiet_bind; [apply quiet_emit, HP|intros _; apply quiet_ret].
Qed.

Lemma quiet_spawn cmd :
  (forall o, P (Popen cmd o) = true) -> quiet P (spawn cmd).
Proof.
  intros HP. unfold spawn.
  apply quiet_bind; [apply quiet_get|intros pid].
  apply quiet_bind.
  { apply quiet_silent. intros w. simpl. auto. }
  intros _. apply quiet_bind; [apply quiet_emit, HP|intros _; apply quiet_ret].
Qed.

Lemma quiet_with_open_w {A} p (body : file_obj -> M A) :
  (forall q, P (Close q) = true) ->
  (forall f, quiet P (body f)) -> quiet P (with_open_w p body).
Proof.
  intros HP Hbody. unfold with_open_w.
  apply quiet_bind; [apply quiet_open_w|intros f].
  apply quiet_try_finally; [apply Hbody|].
  apply quiet_bind; [apply quiet_close, HP|intros _; apply quiet_ret].
Qed.

Lemma quiet_with_open_a {A} p (body : file_obj -> M A) :
  (forall q, P (Close q) = true) ->
  (forall f, quiet P (body f)) -> quiet P (with_open_a p body).
Proof.
  intros HP Hbody. unfold with_open_a.
  apply quiet_bind; [apply quiet_open_a|intros f].
  apply quiet_try_finally; [apply Hbody|].
  apply quiet_bind; [apply quiet_close, HP|intros _; apply quiet_ret].
Qed.

End Primitives.

Ltac quiet_step :=
  first
    [ apply quiet_ret | apply quiet_raise | apply quiet_path_exists
    | apply quiet_rmtree | apply quiet_mkdir_parents | apply quiet_write
    | apply quiet_read_file | apply quiet_reap | apply quiet_modify_fs
    | apply quiet_get
    | apply quiet_emit; reflexivity
    | apply quiet_with_open_w; [reflexivity|intros ?]
    | apply quiet_with_open_a; [reflexivity|intros ?]
    | apply quiet_bind; [|intros ?]
    | apply quiet_try_except; [|intros ?]
    | apply quiet_for_each; intros ?
    | match goal with
      | |- quiet _ (if ?b then _ else _) => destruct b
      | |- quiet _ (match ?x with _ => _ end) => destruct x
      end ].

(** *** The methods *)

Lemma quiet_setup_workspace self : quiet is_bystander (setup_workspace self).
Proof. unfold setup_workspace. repeat quiet_step. Qed.

Lemma quiet_configure_agent E self :
  quiet is_bystander (configure_agent E self).
Proof. unfold configure_agent. repeat quiet_step. Qed.

Lemma quiet_get_token_usage p :
  quiet is_bystander (get_token_usage p).
Proof. unfold get_token_usage. repeat quiet_step. Qed.

Lemma quiet_get_prompt_processing_time p :
  quiet is_bystander (get_prompt_processing_time p).
Proof. unfold get_prompt_processing_time. repeat quiet_step. Qed.

Lemma quiet_post_run E self : quiet is_bystander (post_run E self).
Proof.
  unfold post_run, run_script.
  repeat first [ apply quiet_get_token_usage
               | apply quiet_get_prompt_processing_time
               | quiet_step ].
Qed.

End TraceLogic.

(** ** The order of a run *)

Module RunOrder.
Import Text LogMining Os Sys MetadataCollector AgentRunner FsShape Traces
  Samples MonadFacts Workspace StopLogger RunProcess TraceLogic.
Local Open Scope py_scope.

Lemma by_agent_popen cmd o :
  cmd <> lms_log_stream -> by_agent (Popen cmd o) = true.
Proof.
  intros H. unfold by_agent. simpl.
  rewrite bool_decide_eq_false_2 by exact H. reflexivity.
Qed.

Lemma quiet_run_process E self cmd :
  cmd <> lms_log_stream -> quiet by_agent (_run_process E self cmd).
Proof.
  intros Hcmd. unfold _run_process, leave_files.
  repeat first [ apply quiet_spawn; intros ?; apply by_agent_popen, Hcmd
               | apply quiet_emit; apply by_agent_popen, Hcmd
               | quiet_step ].
Qed.

Lemma quiet_execute_agent E self : quiet by_agent (execute_agent E self).
Proof.
  unfold execute_agent, command.
  destruct (cls self);
    repeat first [ apply quiet_run_process; discriminate | quiet_step ].
Qed.

Lemma quiet_invocation E self : quiet by_agent (invocation E self).
Proof.
  unfold invocation.
  apply quiet_bind; [apply quiet_emit; reflexivity|intros _].
  apply quiet_execute_agent.
Qed.

(** The invocation announces itself: the first event it adds is an event of
    the agent. *)
Lemma invocation_announces E self w :
  exists tr, trace (invocation E self w).2
             = trace w ++ Print (txt "[*] Running " ++ agent_name self
                                 ++ txt "...") :: tr.
Proof.
  unfold invocation, bind. rewrite print_run.
  destruct (quiet_execute_agent E self
              (with_trace (trace w ++ [Print (txt "[*] Running "
                                              ++ agent_name self
                                              ++ txt "...")]) w))
    as (_ & tr & Ht & _).
  destruct (execute_agent E self _) as [[[]|e] w']; simpl in *;
    exists tr; rewrite Ht, <- app_assoc; reflexivity.
Qed.

(** All there is to say about one call of [start_server_logger]. *)
Lemma start_server_logger_spec (E : env) (self : runner) (w : world) :
  exists w1 tr,
    start_server_logger E self w = (Ok tt, w1)
    /\ trace w1 = trace w ++ tr
    /\ forallb by_start tr = true
    /\ (forall pid, In (Popen lms_log_stream (Some pid)) tr ->
                    log_process w1 = Some pid)
    /\ (node_at (fs w) (work_dir self) = Some Dir ->
        node_at (fs w) (work_dir self ++ [SERVER_LOG_FILENAME]) <> Some Dir ->
        exists o, In (Popen lms_log_stream o) tr
                  /\ (lms_launches E = None -> exists pid, o = Some pid)).
Proof.
  unfold start_server_logger, popen_logger.
  set (log_path := work_dir self ++ [SERVER_LOG_FILENAME]).
  destruct (parent_error (fs w) log_path) as [e|] eqn:Hpar;
    destruct (node_at (fs w) log_path) as [[c|]|] eqn:Hnode;
    destruct (lms_launches E) as [e'|] eqn:Hlms;
    unfold bind, try_except, print, emit, modify, open_w, spawn, write, get,
      ret, raise; simpl; rewrite ?Hpar, ?Hnode; simpl;
    eexists; eexists;
    (split; [reflexivity|]); simpl;
    (split; [trace_eq|]);
    (split; [reflexivity|]);
    (split; [intros pid Hin; simpl in Hin;
             repeat (destruct Hin as [Hin|Hin]; try discriminate Hin);
             try contradiction; injection Hin as <-; reflexivity|]);
    intros Hdir Hnd;
    try (unfold log_path in Hpar; rewrite (parent_of_child _ _ _ Hdir) in Hpar;
         discriminate Hpar);
    try (exfalso; apply Hnd; reflexivity);
    eexists; (split; [simpl; right; left; reflexivity|]);
    intros Hnone; try discriminate Hnone; eexists; reflexivity.
Qed.

(** *** When the work directory has been set up *)

Lemma bind_inv_ok {A B} (m : M A) (k : A -> M B) w b w' :
  bind m k w = (Ok b, w') ->
  exists a w1, m w = (Ok a, w1) /\ k a w1 = (Ok b, w').
Proof.
  unfold bind. destruct (m w) as [[a|e] w1]; [|discriminate].
  intros H. exists a, w1. split; [reflexivity|exact H].
Qed.

Lemma mkdir_from_inv rest : forall pre (f f' : gmap path node),
  mkdir_from pre rest f = Ok f' ->
  (forall k, (0 < k <= length rest)%nat ->
             f' !! (pre ++ take k rest) = Some Dir)
  /\ (forall q, (forall k, (0 < k <= length rest)%nat ->
                           q <> pre ++ take k rest) ->
                f' !! q = f !! q).
Proof.
  induction rest as [|c rest IH]; intros pre f f' Hrun.
  - simpl in Hrun. injection Hrun as <-.
    split; [intros k Hk; simpl in Hk; lia|auto].
  - assert (Hfree : forall k c0, (0 < k <= length (c :: rest))%nat ->
                                 f !! (pre ++ take k (c :: rest))
                                 <> Some (File c0)).
    { revert pre f f' Hrun. clear IH.
      induction (c :: rest) as [|d l IHl]; intros pre f f' Hrun k c0 Hk;
        [simpl in Hk; lia|].
      simpl in Hrun. destruct k as [|k]; [lia|].
      destruct k as [|k].
      - simpl. rewrite take_0.
        destruct (f !! (pre ++ [d])) as [[c1|]|]; congruence.
      - simpl. replace (pre ++ d :: take (S k) l)
          with ((pre ++ [d]) ++ take (S k) l)
          by (rewrite <- app_assoc; reflexivity).
        assert (Hne : (pre ++ [d]) ++ take (S k) l <> pre ++ [d]).
        { intros Heq. apply (f_equal length) in Heq.
          rewrite !length_app, length_take in Heq.
          cbn [length] in Heq, Hk. lia. }
        destruct (f !! (pre ++ [d])) as [[c1|]|] eqn:Hd; [discriminate| |].
        + eapply IHl; [exact Hrun|simpl in Hk; lia].
        + intros Hfile.
          eapply (IHl _ _ _ Hrun (S k) c0); [simpl in Hk; lia|].
          rewrite lookup_insert_ne by (intros Heq; symmetry in Heq; auto).
          exact Hfile. }
    destruct (mkdir_from_ok (c :: rest) pre f Hfree)
      as (f'' & Hrun' & Hon & Hoff).
    rewrite Hrun in Hrun'. injection Hrun' as <-. auto.
Qed.

(** After a [setup_workspace] that returned, the work directory is an
    empty directory. *)
Lemma setup_workspace_inv (self : runner) (w w' : world) :
  wf_fs (fs w) -> work_dir self <> [] ->
  setup_workspace self w = (Ok tt, w') ->
  empty_dir (fs w') (work_dir self).
Proof.
  set (d := work_dir self). intros Hwf Hd Hrun.
  assert (Hall : take (length d) d = d) by (apply take_ge; lia).
  assert (Hlen : (0 < length d)%nat) by (destruct d; [congruence|simpl; lia]).
  unfold setup_workspace in Hrun. fold d in Hrun.
  apply bind_inv_ok in Hrun. destruct Hrun as (here & w0 & Hhere & Hrun).
  unfold path_exists, get in Hhere. injection Hhere as <- <-.
  rewrite (node_at_ne _ _ Hd) in Hrun.
  apply bind_inv_ok in Hrun. destruct Hrun as ([] & w1 & Hclean & Hrun).
  apply bind_inv_ok in Hrun. destruct Hrun as ([] & w2 & Hmk & Hprint).
  rewrite print_run in Hprint. injection Hprint as <-. simpl.
  unfold mkdir_parents in Hmk.
  destruct (mkdir_from [] d (fs w1)) as [f'|e] eqn:Hfrom; [|discriminate].
  injection Hmk as <-. simpl.
  destruct (mkdir_from_inv d [] _ _ Hfrom) as [Hon Hoff]. simpl in Hon, Hoff.
  assert (Hunder : forall q, d `prefix_of` q -> q <> d -> fs w1 !! q = None).
  { intros q Hq Hne. destruct (fs w !! d) as [n|] eqn:Hnode.
    - apply bind_inv_ok in Hclean.
      destruct Hclean as ([] & w0 & Hp & Hrm).
      rewrite print_run in Hp. injection Hp as <-.
      unfold rmtree in Hrm. simpl in Hrm.
      rewrite (node_at_ne _ _ Hd), Hnode in Hrm.
      destruct n as [c|]; [discriminate|]. injection Hrm as <-. simpl.
      apply removed_under. exact Hq.
    - unfold ret in Hclean. injection Hclean as <-.
      eapply wf_nothing_under; eauto. }
  split.
  - specialize (Hon (length d)). rewrite Hall in Hon. apply Hon. lia.
  - intros q Hq Hne. rewrite Hoff; [apply Hunder; assumption|].
    intros k _. apply under_not_on_way; assumption.
Qed.

(** [configure_agent] writes at most [opencode.json]. *)
Lemma configure_agent_inv (E : env) (self : runner) (w w' : world) q :
  configure_agent E self w = (Ok tt, w') ->
  q <> work_dir self ++ [txt "opencode.json"] ->
  fs w' !! q = fs w !! q.
Proof.
  unfold configure_agent. intros Hrun Hq.
  destruct (cls self);
    try (unfold ret in Hrun; injection Hrun as <-; reflexivity).
  unfold with_open_w, bind, try_finally, open_w, write, close, emit, modify,
    ret in Hrun.
  destruct (parent_error (fs w) _); [discriminate|].
  destruct (node_at (fs w) _) as [[c|]|]; simpl in Hrun;
    try discriminate; injection Hrun as <-; simpl;
    rewrite lookup_alter_ne, lookup_insert_ne
      by (intros Heq; apply Hq; symmetry; exact Heq);
    reflexivity.
Qed.

(** *** Finding an event in a trace made of parts *)

Lemma split_after (Q : event -> bool) (l1 : list event) :
  forall l2 pre e post,
  l1 ++ l2 = pre ++ e :: post ->
  forallb (fun x => negb (Q x)) l1 = true -> Q e = true ->
  exists m, pre = l1 ++ m /\ l2 = m ++ e :: post.
Proof.
  induction l1 as [|a l1 IH]; intros l2 pre e post Heq Hall He.
  - exists pre. split; [reflexivity|exact Heq].
  - simpl in Hall. apply andb_true_iff in Hall. destruct Hall as [Ha Hall].
    destruct pre as [|b pre]; simpl in Heq; injection Heq as -> Heq.
    + rewrite He in Ha. discriminate Ha.
    + destruct (IH _ _ _ _ Heq Hall He) as (m & -> & ->).
      exists m. split; reflexivity.
Qed.

Lemma split_before (Q : event -> bool) (l2 : list event) :
  forall l1 pre e post,
  l1 ++ l2 = pre ++ e :: post ->
  forallb (fun x => negb (Q x)) l2 = true -> Q e = true ->
  exists m, l1 = pre ++ e :: m /\ post = m ++ l2.
Proof.
  intros l1 pre. revert l1.
  induction pre as [|b pre IH]; intros l1 e post Heq Hall He.
  - destruct l1 as [|a l1]; simpl in Heq.
    + subst l2. simpl in Hall. rewrite He in Hall. discriminate Hall.
    + injection Heq as -> Heq. exists l1. split; [reflexivity|].
      symmetry. exact Heq.
  - destruct l1 as [|a l1]; simpl in Heq.
    + subst l2. simpl in Hall. apply andb_true_iff in Hall.
      destruct Hall as [_ Hall]. rewrite forallb_app in Hall.
      apply andb_true_iff in Hall. destruct Hall as [_ Hall].
      simpl in Hall. rewrite He in Hall. discriminate Hall.
    + injection Heq as -> Heq.
      destruct (IH _ _ _ Heq Hall He) as (m & -> & ->).
      exists m. split; reflexivity.
Qed.

Lemma forallb_weaken (P Q : event -> bool) (l : list event) :
  (forall e, P e = true -> Q e = true) ->
  forallb P l = true -> forallb Q l = true.
Proof. intros HPQ. rewrite !forallb_forall. auto. Qed.

Lemma no_such_event (P Q : event -> bool) (l : list event) e :
  (forall x, P x = true -> Q x = false) ->
  forallb P l = true -> In e l -> Q e = false.
Proof. intros HPQ Hall Hin. rewrite forallb_forall in Hall. auto. Qed.

Lemma existsb_none (P Q : event -> bool) (l : list event) :
  (forall x, P x = true -> Q x = false) ->
  forallb P l = true -> existsb Q l = false.
Proof.
  intros HPQ Hall. induction l as [|a l IH]; [reflexivity|].
  simpl in *. apply andb_true_iff in Hall. destruct Hall as [Ha Hall].
  rewrite (HPQ a Ha), (IH Hall). reflexivity.
Qed.

(** *** The parts of a run *)

Lemma run_unfold (E : env) (self : runner) (w : world) :
  run E self w
  = (before_agent E self ;;
     try_finally (invocation E self) (stop_server_logger E) ;;
     post_run E self) w.
Proof.
  unfold run, before_agent, invocation, bind.
  destruct (setup_workspace self w) as [[[]|e] w0]; [|reflexivity].
  destruct (configure_agent E self w0) as [[[]|e] w1]; [|reflexivity].
  destruct (start_server_logger E self w1) as [[[]|e] w2]; reflexivity.
Qed.

(** What comes before the agent either raises, having added bystanders
    only, or returns, having tried to launch the logger. *)
Lemma before_agent_spec (E : env) (self : runner) (w : world) :
  wf_fs (fs w) -> work_dir self <> [] ->
  exists A,
    forallb is_bystander A = true
    /\ ((exists e w0, before_agent E self w = (Raise e, w0)
                      /\ trace w0 = trace w ++ A)
        \/ (exists w1 S o,
              before_agent E self w = (Ok tt, w1)
              /\ trace w1 = trace w ++ A ++ S
              /\ forallb by_start S = true
              /\ (forall pid, In (Popen lms_log_stream (Some pid)) S ->
                              log_process w1 = Some pid)
              /\ In (Popen lms_log_stream o) S
              /\ (lms_launches E = None -> exists pid, o = Some pid))).
Proof.
  intros Hwf Hd. unfold before_agent.
  destruct (quiet_setup_workspace self w) as (_ & A0 & Ht0 & HA0).
  destruct (setup_workspace self w) as [[[]|e] w0] eqn:Hsetup; simpl in *.
  2:{ exists A0. split; [exact HA0|]. left. exists e, w0.
      split; [|exact Ht0]. apply bind_raise. exact Hsetup. }
  pose proof (setup_workspace_inv self w w0 Hwf Hd Hsetup) as [Hdir Hempty].
  destruct (quiet_configure_agent E self w0) as (_ & A1 & Ht1 & HA1).
  destruct (configure_agent E self w0) as [[[]|e] w1] eqn:Hconf; simpl in *.
  2:{ exists (A0 ++ A1). rewrite forallb_app, HA0, HA1.
      split; [reflexivity|]. left. exists e, w1. split.
      - erewrite bind_ok by exact Hsetup. apply bind_raise. exact Hconf.
      - rewrite Ht1, Ht0, app_assoc. reflexivity. }
  destruct (start_server_logger_spec E self w1)
    as (w2 & S & Hstart & HtS & HS & Hpid & Hattempt).
  destruct Hattempt as (o & Hin & Hlaunch).
  { rewrite (node_at_ne _ _ Hd).
    rewrite (configure_agent_inv E self w0 w1 _ Hconf); [exact Hdir|].
    intros Heq. apply (f_equal length) in Heq. rewrite length_app in Heq.
    simpl in Heq. lia. }
  { assert (Hlog : work_dir self ++ [SERVER_LOG_FILENAME] <> []).
    { intros Heq. apply app_eq_nil in Heq. destruct Heq as [_ Heq].
      discriminate Heq. }
    rewrite (node_at_ne _ _ Hlog).
    rewrite (configure_agent_inv E self w0 w1 _ Hconf).
    - rewrite Hempty; [discriminate|eexists; reflexivity|].
      intros Heq. apply (f_equal length) in Heq. rewrite length_app in Heq.
      simpl in Heq. lia.
    - intros Heq. apply app_inv_head in Heq. discriminate Heq. }
  exists (A0 ++ A1). rewrite forallb_app, HA0, HA1. split; [reflexivity|].
  right. exists w2, S, o. split; [|split; [|auto]].
  - erewrite bind_ok by exact Hsetup. erewrite bind_ok by exact Hconf.
    exact Hstart.
  - rewrite HtS, Ht1, Ht0, <- !app_assoc. reflexivity.
Qed.

(** The trace of a run, part by part: bystanders, the start of the logger,
    the agent, the stop of the logger, bystanders. *)
Lemma run_shape (E : env) (self : runner) (w : world) :
  wf_fs (fs w) -> work_dir self <> [] ->
  exists A S G T P,
    trace (run E self w).2 = trace w ++ A ++ S ++ G ++ T ++ P
    /\ forallb is_bystander A = true
    /\ forallb by_start S = true
    /\ forallb by_agent G = true
    /\ forallb by_stop T = true
    /\ forallb is_bystander P = true
    /\ (G <> [] ->
        exists o, In (Popen lms_log_stream o) S
                  /\ (lms_launches E = None -> exists pid, o = Some pid))
    /\ (forall pid, In (Popen lms_log_stream (Some pid)) S ->
                    In (Terminate pid) T).
Proof.
  intros Hwf Hd. rewrite run_unfold.
  destruct (before_agent_spec E self w Hwf Hd) as (A & HA & Hcase).
  destruct Hcase as [(e & w0 & Hrun & Ht)
                    |(w1 & S & o & Hrun & Ht & HS & Hpid & Hin & Hlaunch)].
  - exists A, [], [], [], []. erewrite bind_raise by exact Hrun. simpl.
    rewrite app_nil_r.
    repeat split; auto; congruence.
  - erewrite bind_ok by exact Hrun.
    destruct (quiet_invocation E self w1) as (HlG & G & HtG & HG).
    destruct (invocation E self w1) as [ra w2] eqn:Hinv; simpl in *.
    destruct (stop_server_logger_spec E w2)
      as (w3 & T & Hstop & _ & HtT & HT & Hterm & _).
    pose proof (try_finally_ok _ _ _ _ _ _ Hinv Hstop) as Htf.
    assert (Hlogger : forall pid, In (Popen lms_log_stream (Some pid)) S ->
                                  In (Terminate pid) T).
    { intros pid Hp. apply Hterm. rewrite HlG. apply Hpid. exact Hp. }
    destruct ra as [[]|e].
    + erewrite bind_ok by exact Htf.
      destruct (quiet_post_run E self w3) as (_ & P & HtP & HP).
      exists A, S, G, T, P. rewrite HtP, HtT, HtG, Ht, <- !app_assoc.
      repeat split; auto. intros _. exists o. auto.
    + erewrite bind_raise by exact Htf.
      exists A, S, G, T, []. simpl. rewrite HtT, HtG, Ht, <- !app_assoc.
      rewrite app_nil_r.
      repeat split; auto. intros _. exists o. auto.
Qed.

(** *** What the kinds of event exclude *)

Lemma bystander_not_agent e : is_bystander e = true -> is_agent_event e = false.
Proof. unfold is_bystander. destruct (is_agent_event e); [discriminate|auto]. Qed.

Lemma bystander_not_start e :
  is_bystander e = true -> is_logger_start e = false.
Proof.
  unfold is_bystander.
  destruct (is_agent_event e), (is_logger_start e); [discriminate..|auto].
Qed.

Lemma bystander_not_termination e :
  is_bystander e = true -> is_termination e = false.
Proof.
  unfold is_bystander.
  destruct (is_agent_event e), (is_logger_start e), (is_termination e);
    try discriminate; auto.
Qed.

Lemma start_not_agent e : by_start e = true -> is_agent_event e = false.
Proof. unfold by_start. destruct (is_agent_event e); [discriminate|auto]. Qed.

Lemma start_not_termination e : by_start e = true -> is_termination e = false.
Proof.
  unfold by_start.
  destruct (is_agent_event e), (is_termination e); try discriminate; auto.
Qed.

Lemma agent_not_start e : by_agent e = true -> is_logger_start e = false.
Proof. unfold by_agent. destruct (is_logger_start e); [discriminate|auto]. Qed.

Lemma agent_not_termination e : by_agent e = true -> is_termination e = false.
Proof.
  unfold by_agent.
  destruct (is_logger_start e), (is_termination e); try discriminate; auto.
Qed.

Lemma stop_not_agent e : by_stop e = true -> is_agent_event e = false.
Proof. unfold by_stop. destruct (is_agent_event e); [discriminate|auto]. Qed.

Lemma none_of (P Q : event -> bool) (l : list event) :
  (forall x, P x = true -> Q x = false) ->
  forallb P l = true -> forallb (fun x => negb (Q x)) l = true.
Proof.
  intros HPQ. apply forallb_weaken. intros e He. rewrite (HPQ e He).
  reflexivity.
Qed.

(** The order of a run.  In a well-formed file system, whatever the machine
    does: before any event of the agent (the line that announces it, the
    launch of its process, a line of its output) the launch of the logger
    has been tried, and has succeeded when [lms] can be launched; no process
    has been terminated or killed yet; and every logger launched before is
    terminated after. *)
Theorem logger_brackets_agent (E : env) (self : runner) (w : world)
    (Hwf : wf_fs (fs w)) (Hpath : work_dir self <> []) :
  exists tr,
    trace (run E self w).2 = trace w ++ tr
    /\ forall pre e post,
         tr = pre ++ e :: post -> is_agent_event e = true ->
         (exists o, In (Popen lms_log_stream o) pre
                    /\ (lms_launches E = None -> exists pid, o = Some pid))
         /\ existsb is_termination pre = false
         /\ (forall pid, In (Popen lms_log_stream (Some pid)) pre ->
                         In (Terminate pid) post).
Proof.
  destruct (run_shape E self w Hwf Hpath)
    as (A & S & G & T & P & Ht & HA & HS & HG & HT & HP & Hattempt & Hlogger).
  exists (A ++ S ++ G ++ T ++ P). split; [exact Ht|].
  intros pre e post Heq He.
  destruct (split_after is_agent_event A _ _ _ _ Heq) as (m1 & -> & Heq1);
    [exact (none_of _ _ _ bystander_not_agent HA)|exact He|].
  destruct (split_after is_agent_event S _ _ _ _ Heq1) as (m2 & -> & Heq2);
    [exact (none_of _ _ _ start_not_agent HS)|exact He|].
  destruct (split_before is_agent_event (T ++ P) G _ _ _ Heq2)
    as (m3 & HGeq & ->); [|exact He|].
  { rewrite forallb_app.
    rewrite (none_of _ _ _ stop_not_agent HT).
    rewrite (none_of _ _ _ bystander_not_agent HP). reflexivity. }
  assert (Hm2 : forallb by_agent m2 = true).
  { rewrite HGeq, forallb_app in HG. apply andb_true_iff in HG. tauto. }
  split; [|split].
  - destruct Hattempt as (o & Hin & Hlaunch).
    { rewrite HGeq. intros Hnil. apply app_eq_nil in Hnil.
      destruct Hnil as [_ Hnil]. discriminate Hnil. }
    exists o. split; [|exact Hlaunch].
    apply in_or_app. right. apply in_or_app. left. exact Hin.
  - rewrite !existsb_app.
    rewrite (existsb_none _ _ _ bystander_not_termination HA).
    rewrite (existsb_none _ _ _ start_not_termination HS).
    rewrite (existsb_none _ _ _ agent_not_termination Hm2). reflexivity.
  - intros pid Hin.
    assert (Hstart : is_logger_start (Popen lms_log_stream (Some pid)) = true)
      by (unfold is_logger_start; apply bool_decide_eq_true_2; reflexivity).
    apply in_app_or in Hin. destruct Hin as [Hin|Hin].
    { rewrite (no_such_event _ _ _ _ bystander_not_start HA Hin) in Hstart.
      discriminate Hstart. }
    apply in_app_or in Hin. destruct Hin as [Hin|Hin].
    + apply in_or_app. right. apply in_or_app. left. apply Hlogger, Hin.
    + rewrite (no_such_event _ _ _ _ agent_not_start Hm2 Hin) in Hstart.
      discriminate Hstart.
Qed.

Lemma logger_brackets_agent_witness :
  exists tr,
    trace (run vibe_machine vibe_runner used_world).2
    = trace used_world ++ tr
    /\ forall pre e post,
         tr = pre ++ e :: post -> is_agent_event e = true ->
         (exists o, In (Popen lms_log_stream o) pre
                    /\ (lms_launches vibe_machine = None ->
                        exists pid, o = Some pid))
         /\ existsb is_termination pre = false
         /\ (forall pid, In (Popen lms_log_stream (Some pid)) pre ->
                         In (Terminate pid) post).
Proof.
  apply (logger_brackets_agent vibe_machine vibe_runner used_world).
  - apply wf_fsb_sound. vm_compute. reflexivity.
  - vm_compute. discriminate.
Defined.

(** *** When the invocation raises *)

Lemma adds_only_of_quiet {A} (P : event -> bool) (m : M A) :
  quiet P m -> adds_only P m.
Proof. intros H w. destruct (H w) as [_ Htr]. exact Htr. Qed.

Lemma adds_only_silent {A} (P : event -> bool) (m : M A) :
  (forall w, trace (m w).2 = trace w) -> adds_only P m.
Proof. intros H w. exists []. rewrite app_nil_r. auto. Qed.

Lemma adds_only_bind {A B} (P : event -> bool) (m : M A) (k : A -> M B) :
  adds_only P m -> (forall a, adds_only P (k a)) -> adds_only P (bind m k).
Proof.
  intros Hm Hk w. unfold bind. destruct (Hm w) as (tr & Ht & Hall).
  destruct (m w) as [[a|e] w']; simpl in *.
  - destruct (Hk a w') as (tr' & Ht' & Hall').
    exists (tr ++ tr'). rewrite Ht', Ht, app_assoc, forallb_app, Hall, Hall'.
    by split.
  - by exists tr.
Qed.

Lemma adds_only_try_except {A} (P : event -> bool) (m : M A)
    (h : exn -> M A) :
  adds_only P m -> (forall e, adds_only P (h e)) ->
  adds_only P (try_except m h).
Proof.
  intros Hm Hh w. unfold try_except. destruct (Hm w) as (tr & Ht & Hall).
  destruct (m w) as [[a|e] w']; simpl in *.
  - by exists tr.
  - destruct (Hh e w') as (tr' & Ht' & Hall').
    exists (tr ++ tr'). rewrite Ht', Ht, app_assoc, forallb_app, Hall, Hall'.
    by split.
Qed.

Ltac adds_step :=
  first
    [ apply adds_only_bind; [|intros ?]
    | apply adds_only_try_except; [|intros ?]
    | apply adds_only_silent; intros ?; reflexivity
    | match goal with
      | |- adds_only _ (if ?b then _ else _) => destruct b
      | |- adds_only _ (match ?x with _ => _ end) => destruct x
      end
    | solve [ apply adds_only_of_quiet;
              repeat first [ apply quiet_spawn; intros ?; reflexivity
                           | apply quiet_close; intros ?; reflexivity
                           | apply quiet_open_w
                           | quiet_step ] ] ].

Lemma start_adds (E : env) (self : runner) :
  adds_only not_post_run (start_server_logger E self).
Proof. unfold start_server_logger, popen_logger. repeat adds_step. Qed.

Lemma stop_adds (E : env) :
  adds_only not_post_run (stop_server_logger E).
Proof.
  unfold stop_server_logger, wait_logger, kill. repeat adds_step.
Qed.

Lemma before_agent_adds (E : env) (self : runner) :
  adds_only not_post_run (before_agent E self).
Proof.
  unfold before_agent.
  apply adds_only_bind; [|intros _; apply adds_only_bind; [|intros _]].
  - apply adds_only_of_quiet. unfold setup_workspace. repeat quiet_step.
  - apply adds_only_of_quiet. unfold configure_agent. repeat quiet_step.
  - apply start_adds.
Qed.

Lemma invocation_adds (E : env) (self : runner) :
  adds_only not_post_run (invocation E self).
Proof.
  apply adds_only_of_quiet.
  unfold invocation, execute_agent, command, _run_process, leave_files.
  destruct (cls self);
    repeat first [ apply quiet_spawn; intros ?; reflexivity | quiet_step ].
Qed.

(** When the invocation of the agent raises, [run] raises the same
    exception, and it does so from the world [stop_server_logger] leaves: no
    logger is recorded, the logger that was recorded has been terminated and
    is not alive, and [run] has run no script and made no report. *)
Theorem invocation_failure_aborts_run (E : env) (self : runner)
    (w w1 w2 : world) (e : exn)
    (Hbefore : before_agent E self w = (Ok tt, w1))
    (Hinvocation : invocation E self w1 = (Raise e, w2)) :
  exists w3 tr,
    run E self w = (Raise e, w3)
    /\ stop_server_logger E w2 = (Ok tt, w3)
    /\ log_process w3 = None
    /\ (forall pid, log_process w1 = Some pid ->
                    In (Terminate pid) tr /\ pid ∉ running w3)
    /\ trace w3 = trace w ++ tr
    /\ existsb is_post_run tr = false.
Proof.
  destruct (stop_server_logger_spec E w2)
    as (w3 & T & Hstop & Hnone & HtT & _ & Hterm & _).
  destruct (before_agent_adds E self w) as (tr1 & Ht1 & H1).
  destruct (invocation_adds E self w1) as (tr2 & Ht2 & H2).
  destruct (stop_adds E w2) as (T' & HtT' & H3).
  destruct (quiet_invocation E self w1) as (Hlog & _).
  rewrite Hbefore in Ht1. rewrite Hinvocation in Ht2, Hlog.
  rewrite Hstop in HtT'. simpl in *.
  assert (T' = T) as -> by (rewrite HtT in HtT'; eapply app_inv_head; eauto).
  exists w3, (tr1 ++ tr2 ++ T). split; [|split; [exact Hstop|split]].
  - rewrite run_unfold. erewrite bind_ok by exact Hbefore.
    apply bind_raise. eapply try_finally_ok; eauto.
  - exact Hnone.
  - split; [|split].
    + intros pid Hpid. rewrite <- Hlog in Hpid.
      destruct (Hterm pid Hpid) as [Hin Hdead]. split; [|exact Hdead].
      apply in_or_app. right. apply in_or_app. right. exact Hin.
    + rewrite HtT, Ht2, Ht1, <- !app_assoc. reflexivity.
    + apply existsb_none with (P := not_post_run).
      * intros x. unfold not_post_run. destruct (is_post_run x); auto.
      * rewrite !forallb_app, H1, H2, H3. reflexivity.
Qed.

Lemma invocation_failure_aborts_run_witness :
  exists w3 tr,
    run vibe_machine gemini_runner used_world = (Raise FileNotFoundError, w3)
    /\ stop_server_logger vibe_machine gemini_failed = (Ok tt, w3)
    /\ log_process w3 = None
    /\ (forall pid, log_process gemini_started = Some pid ->
                    In (Terminate pid) tr /\ pid ∉ running w3)
    /\ trace w3 = trace used_world ++ tr
    /\ existsb is_post_run tr = false.
Proof.
  apply (invocation_failure_aborts_run vibe_machine gemini_runner used_world
           gemini_started gemini_failed FileNotFoundError);
    vm_compute; reflexivity.
Defined.

End RunOrder.

(** ** What never fails *)

Module Lifecycle.
Import Text LogMining Os Sys MetadataCollector AgentRunner FsShape Traces
  Samples MonadFacts Workspace StopLogger RunProcess TraceLogic RunOrder.
Local Open Scope py_scope.

(** Neither log-mining method ever raises or writes: a log that is absent
    or cannot be read as a file gives the zero tally and the zero duration,
    and the file system is left as it was. *)
Theorem collectors_never_raise (w : world) (p : path) :
  exists u t w1 w2,
    get_token_usage p w = (Ok u, w1)
    /\ get_prompt_processing_time p w = (Ok t, w2)
    /\ fs w1 = fs w /\ fs w2 = fs w
    /\ ((forall content, node_at (fs w) p <> Some (File content)) ->
        u = usage_zero /\ t = 0%Z).
Proof.
  unfold get_token_usage, get_prompt_processing_time, bind, path_exists, get,
    try_except, read_file, print, emit, modify, ret.
  destruct (node_at (fs w) p) as [[c|]|] eqn:Hnode; simpl; rewrite ?Hnode;
    simpl; do 4 eexists;
    (split; [reflexivity|]); (split; [reflexivity|]);
    (split; [reflexivity|]); (split; [reflexivity|]);
    intros H; try (split; reflexivity).
  exfalso. exact (H c eq_refl).
Qed.

(** What [start_server_logger] does to the processes. *)
Lemma start_server_logger_running (E : env) (self : runner) (w : world) :
  exists w1,
    start_server_logger E self w = (Ok tt, w1)
    /\ ((running w1 = running w /\ log_process w1 = log_process w)
        \/ exists pid, log_process w1 = Some pid
                       /\ running w1 = {[pid]} ∪ running w).
Proof.
  unfold start_server_logger, popen_logger.
  set (log_path := work_dir self ++ [SERVER_LOG_FILENAME]).
  destruct (parent_error (fs w) log_path) as [e|] eqn:Hpar;
    destruct (node_at (fs w) log_path) as [[c|]|] eqn:Hnode;
    destruct (lms_launches E) as [e'|] eqn:Hlms;
    unfold bind, try_except, print, emit, modify, open_w, spawn, write, get,
      ret, raise; simpl; rewrite ?Hpar, ?Hnode; simpl;
    eexists; (split; [reflexivity|]); simpl;
    first [ left; split; reflexivity
          | right; eexists; split; reflexivity ].
Qed.

(** What [stop_server_logger] does to the processes and to the file. *)
Lemma stop_server_logger_running (E : env) (w : world) :
  exists w2,
    stop_server_logger E w = (Ok tt, w2)
    /\ log_process w2 = None
    /\ running w2 = match log_process w with
                    | Some pid => running w ∖ {[pid]}
                    | None => running w
                    end
    /\ (forall f, server_log_file w2 = Some f -> closed f = true).
Proof.
  destruct w as [f r n t lp slf].
  unfold stop_server_logger.
  destruct lp as [pid|]; destruct slf as [[fn [|]]|];
    destruct (logger_exits_in_time E) eqn:Hexit;
    unfold bind, get, try_except, wait_logger, kill, reap, close, emit,
      print, modify, ret, raise; simpl; rewrite ?Hexit; simpl;
    eexists; (split; [reflexivity|]); simpl;
    (split; [reflexivity|]); (split; [reflexivity|]);
    intros f0 Hf0; try discriminate Hf0; injection Hf0 as <-; reflexivity.
Qed.

(** [start_server_logger] never raises, whatever fails in it, and
    [stop_server_logger] after it leaves nothing behind: no logger is
    recorded, no process is alive that was not alive before the start, and
    the log file the runner holds, if any, is closed. *)
Theorem start_then_stop_leaves_nothing (E : env) (self : runner) (w : world) :
  exists w1 w2,
    start_server_logger E self w = (Ok tt, w1)
    /\ stop_server_logger E w1 = (Ok tt, w2)
    /\ log_process w2 = None
    /\ running w2 ⊆ running w
    /\ (forall f, server_log_file w2 = Some f -> closed f = true).
Proof.
  destruct (start_server_logger_running E self w) as (w1 & Hstart & Hcase).
  destruct (stop_server_logger_running E w1)
    as (w2 & Hstop & Hnone & Hrunning & Hclosed).
  exists w1, w2. repeat split; try assumption.
  rewrite Hrunning.
  destruct Hcase as [[Hr Hl]|(pid & Hl & Hr)]; rewrite Hl, Hr.
  - destruct (log_process w); set_solver.
  - set_solver.
Qed.

End Lifecycle.
